(** * Report pipeline of [app/main.py]: ranking, metric extraction, endpoint

    A shallow embedding of the three functions of [app/main.py]:
    - [search_relevant_text]   (the lexical relevance ranker),
    - [extract_ev_ebitda_median] (the table metric extractor),
    - [summarize_preset_file]  (the [/summarize] endpoint),
    followed by the properties the specification states about them.

    Python values are modelled as follows.
    - [str] is a sequence of Unicode code points (what [re], [in] and
      [strip] operate on); literals are written in UTF-8 and decoded.
    - Exceptions are values of [exn]; a computation that may raise returns
      a [result].
    - Calls that leave the process (file system, document loader, language
      model) go through a record of collaborators and are recorded in a
      trace, so that "no call was attempted" is a statement about the trace.
    - [logging] calls have no influence on results and are left out. *)

From Stdlib Require Import List NArith ZArith QArith Bool Arith Lia.
From Stdlib Require Strings.String Strings.Byte.
From Stdlib Require Import Permutation Sorted.
Import ListNotations.
Import String.StringSyntax.
Delimit Scope string_scope with string.
Close Scope Q_scope.

(* ================================================================== *)
(** ** Python strings *)

Module PyStr.

(** A code point. *)
Definition char := N.

(** A Python [str]. *)
Definition str := list char.

Definition continuation (b : N) : N := N.land b 0x3F.

(** UTF-8 decoding of the bytes of a source literal. *)
Fixpoint utf8_decode (bs : list N) : str :=
  match bs with
  | [] => []
  | b0 :: r0 =>
      if (b0 <? 0x80)%N then b0 :: utf8_decode r0
      else if (b0 <? 0xE0)%N then
        match r0 with
        | b1 :: r1 =>
            (N.shiftl (N.land b0 0x1F) 6 + continuation b1)%N :: utf8_decode r1
        | [] => []
        end
      else if (b0 <? 0xF0)%N then
        match r0 with
        | b1 :: b2 :: r2 =>
            (N.shiftl (N.land b0 0x0F) 12 + N.shiftl (continuation b1) 6
             + continuation b2)%N :: utf8_decode r2
        | _ => []
        end
      else
        match r0 with
        | b1 :: b2 :: b3 :: r3 =>
            (N.shiftl (N.land b0 0x07) 18 + N.shiftl (continuation b1) 12
             + N.shiftl (continuation b2) 6 + continuation b3)%N
            :: utf8_decode r3
        | _ => []
        end
  end.

(** [u "..."] is the Python literal ["..."]. *)
Definition u (s : String.string) : str :=
  utf8_decode (map Byte.to_N (String.list_byte_of_string s)).

Arguments u s%_string.

Fixpoint eqb (a b : str) : bool :=
  match a, b with
  | [], [] => true
  | x :: a', y :: b' => (x =? y)%N && eqb a' b'
  | _, _ => false
  end.

Fixpoint startswith (s prefix : str) : bool :=
  match prefix, s with
  | [], _ => true
  | p :: prefix', c :: s' => (p =? c)%N && startswith s' prefix'
  | _ :: _, [] => false
  end.

(** [needle in hay]. *)
Fixpoint contains (needle hay : str) : bool :=
  startswith hay needle ||
  match hay with
  | [] => false
  | _ :: hay' => contains needle hay'
  end.

(** [str.isspace] on one character (CPython's [_PyUnicode_IsWhitespace]). *)
Definition isspace (c : char) : bool :=
  ((0x09 <=? c) && (c <=? 0x0D) || (0x1C <=? c) && (c <=? 0x20)
   || (c =? 0x85) || (c =? 0xA0) || (c =? 0x1680)
   || (0x2000 <=? c) && (c <=? 0x200A)
   || (c =? 0x2028) || (c =? 0x2029) || (c =? 0x202F) || (c =? 0x205F)
   || (c =? 0x3000))%N.

Fixpoint lstrip (s : str) : str :=
  match s with
  | c :: s' => if isspace c then lstrip s' else s
  | [] => []
  end.

Definition rstrip (s : str) : str := rev (lstrip (rev s)).

(** [s.strip()]. *)
Definition strip (s : str) : str := rstrip (lstrip s).

(** [sep.join(parts)]. *)
Fixpoint join (sep : str) (parts : list str) : str :=
  match parts with
  | [] => []
  | [p] => p
  | p :: rest => p ++ sep ++ join sep rest
  end.

(** First code points of the blocks of ten decimal digits (general
    category Nd) of the Unicode database of CPython 3.11; the block at
    0x1D7CE holds fifty. *)
Definition decimal_blocks : list N :=
  [0x30; 0x660; 0x6F0; 0x7C0; 0x966; 0x9E6; 0xA66; 0xAE6; 0xB66; 0xBE6;
   0xC66; 0xCE6; 0xD66; 0xDE6; 0xE50; 0xED0; 0xF20; 0x1040; 0x1090;
   0x17E0; 0x1810; 0x1946; 0x19D0; 0x1A80; 0x1A90; 0x1B50; 0x1BB0;
   0x1C40; 0x1C50; 0xA620; 0xA8D0; 0xA900; 0xA9D0; 0xA9F0; 0xAA50;
   0xABF0; 0xFF10; 0x104A0; 0x10D30; 0x11066; 0x110F0; 0x11136; 0x111D0;
   0x112F0; 0x11450; 0x114D0; 0x11650; 0x116C0; 0x11730; 0x118E0;
   0x11950; 0x11C50; 0x11D50; 0x11DA0; 0x16A60; 0x16AC0; 0x16B50;
   0x1D7CE; 0x1D7D8; 0x1D7E2; 0x1D7EC; 0x1D7F6;
   0x1E140; 0x1E2F0; 0x1E950; 0x1FBF0]%N.

(** [str.isdecimal] on one character: what [\d] matches in a [str]
    pattern. *)
Definition isdecimal (c : char) : bool :=
  existsb (fun b => (b <=? c) && (c <? b + 10))%N decimal_blocks.

Arguments isdecimal c : simpl never.

End PyStr.

Import PyStr.

(* ================================================================== *)
(** ** Regular expressions: the fragment of [re] the pattern uses *)

Module Re.

(** One-character items. *)
Inductive item : Type :=
| LITERAL (c : char)
| CATEGORY_DIGIT.

Arguments LITERAL c%_N.

(** Parsed patterns, as [sre_parse] produces them. A repetition of a
    one-character item carries its bounds ([None] for no upper bound);
    the only repetition of a group the pattern has is [?]. *)
Inductive regex : Type :=
| IN (i : item)
| MAX_REPEAT (lo : nat) (hi : option nat) (i : item)
| OPTIONAL (r : regex)
| SUBPATTERN (r : regex)
| SEQ (r1 r2 : regex).

Definition item_matches (i : item) (c : char) : bool :=
  match i with
  | LITERAL l => (l =? c)%N
  | CATEGORY_DIGIT => isdecimal c
  end.

Definition may_take (hi : option nat) : bool :=
  match hi with
  | Some 0 => false
  | _ => true
  end.

Definition one_less (hi : option nat) : option nat :=
  match hi with
  | Some n => Some (pred n)
  | None => None
  end.

(** Greedy repetition with backtracking: take one more item when allowed,
    and give it back when the rest of the pattern ([k]) fails. *)
Fixpoint repeat_one (i : item) (lo : nat) (hi : option nat) (s : str)
    (k : str -> option str) : option str :=
  let stop := if (lo =? 0)%nat then k s else None in
  match s with
  | c :: s' =>
      if item_matches i c && may_take hi then
        match repeat_one i (pred lo) (one_less hi) s' k with
        | Some rest => Some rest
        | None => stop
        end
      else stop
  | [] => stop
  end.

(** [match_here r s k]: match [r] at the start of [s], then the rest of
    the pattern [k]; the answer is the input left after the whole match,
    the first one in backtracking order. *)
Fixpoint match_here (r : regex) (s : str) (k : str -> option str)
    : option str :=
  match r with
  | IN i =>
      match s with
      | c :: s' => if item_matches i c then k s' else None
      | [] => None
      end
  | MAX_REPEAT lo hi i => repeat_one i lo hi s k
  | OPTIONAL r' =>
      match match_here r' s k with
      | Some rest => Some rest
      | None => k s
      end
  | SUBPATTERN r' => match_here r' s k
  | SEQ r1 r2 => match_here r1 s (fun s' => match_here r2 s' k)
  end.

(** [pattern.search(s)]: the leftmost match; the result is [group(0)],
    the matched text, or [None]. *)
Fixpoint search (r : regex) (s : str) : option str :=
  match match_here r s (fun rest => Some rest) with
  | Some rest => Some (firstn (length s - length rest) s)
  | None =>
      match s with
      | [] => None
      | _ :: s' => search r s'
      end
  end.

End Re.

Import Re.

(* ================================================================== *)
(** ** Exceptions and results *)

(** The exceptions the program raises or handles. Every class below is a
    subclass of [Exception]; [OtherException] stands for any further
    subclass ([ValueError] from the vectoriser, [PackageNotFoundError]
    from the loader, [KeyError] on a malformed response, ...), carrying
    what [str(e)] gives. *)
Inductive exn : Type :=
| HTTPException (status_code : Z) (detail : str)
| FileNotFoundError (msg : str)
| OpenAIError (msg : str)
| IndexError (msg : str)
| OtherException (msg : str).

(** The outcome of running Python code: a value, or a raised exception. *)
Inductive result (A : Type) : Type :=
| Return (a : A)
| Raise (e : exn).

Arguments Return {A} a.
Arguments Raise {A} e.

Definition bind {A B : Type} (m : result A) (f : A -> result B) : result B :=
  match m with
  | Return a => f a
  | Raise e => Raise e
  end.

Declare Scope result_scope.
Delimit Scope result_scope with result.
Notation "x <- m ;; k" := (bind m (fun x => k))
  (at level 61, m at next level, right associativity) : result_scope.

(** [l[i]] on a Python list. *)
Definition getitem {A : Type} (l : list A) (i : nat) : result A :=
  match nth_error l i with
  | Some a => Return a
  | None => Raise (IndexError (u "list index out of range"))
  end.

(** [[f(x) for x in l]] where [f] may raise. *)
Fixpoint comprehension {A B : Type} (f : A -> result B) (l : list A)
    : result (list B) :=
  match l with
  | [] => Return []
  | x :: l' =>
      (y <- f x ;; ys <- comprehension f l' ;; Return (y :: ys))%result
  end.

(* ================================================================== *)
(** ** Documents *)

(** A table row as the loader gives it: the texts of its cells. *)
Definition Row := list str.

Definition Table := list Row.

(** What the program reads of a loaded document: the texts of its
    paragraphs and its tables ([table.rows], [row.cells], [cell.text]). *)
Record Document : Type := {
  paragraphs : list str;
  tables : list Table
}.

(* ================================================================== *)
(** ** The table metric extractor *)

(** [re.compile(r"(\d{1,3}(?:\.\d+)?)倍")] *)
Definition pattern : regex :=
  SEQ (SUBPATTERN
         (SEQ (MAX_REPEAT 1 (Some 3) CATEGORY_DIGIT)
              (OPTIONAL
                 (SUBPATTERN
                    (SEQ (IN (LITERAL 0x2E))
                         (MAX_REPEAT 1 None CATEGORY_DIGIT))))))
      (IN (LITERAL 0x500D)).

(** The body of the loop over rows: [Return (Some m)] when the body
    executes [return m], [Return None] when it falls through to the next
    row. [cells[0]] raises on a row without cells. *)
Definition check_row (row : Row) : result (option str) :=
  let cells := map strip row in
  (first <- getitem cells 0 ;;
   if contains (u "中央値") first then
     let ev_ebitda_text := last cells [] in
     match search pattern ev_ebitda_text with
     | Some group0 => Return (Some group0)
     | None => Return None
     end
   else Return None)%result.

(** [for row in table.rows: ...] *)
Fixpoint scan_rows (rows : list Row) : result (option str) :=
  match rows with
  | [] => Return None
  | row :: rows' =>
      (r <- check_row row ;;
       match r with
       | Some m => Return (Some m)
       | None => scan_rows rows'
       end)%result
  end.

(** [for table in document.tables: ...] *)
Fixpoint scan_tables (ts : list Table) : result (option str) :=
  match ts with
  | [] => Return None
  | t :: ts' =>
      (r <- scan_rows t ;;
       match r with
       | Some m => Return (Some m)
       | None => scan_tables ts'
       end)%result
  end.

(** [extract_ev_ebitda_median(document)]; [None] is Python's [None]. *)
Definition extract_ev_ebitda_median (document : Document)
    : result (option str) :=
  scan_tables (tables document).

(* ================================================================== *)
(** ** The lexical relevance ranker *)

(** [a[i]] on an array of similarities whose index is known to be in
    range (the indices come from [argsort]). *)
Definition score (a : list Q) (i : nat) : Q := nth i a 0%Q.

(** [l[-3:]] *)
Definition last_three {A : Type} (l : list A) : list A :=
  skipn (length l - 3) l.

(** [l[::-1]] *)
Definition reversed {A : Type} (l : list A) : list A := rev l.

Section Ranker.

(** [TfidfVectorizer().fit_transform([query] + texts)], [toarray] and
    [cosine_similarity(vectors[0:1], vectors[1:]).flatten()]: one
    similarity per text, or the exception scikit-learn raises (an empty
    vocabulary, no text at all). The values are finite floats in
    [0, 1], read as the rationals they denote. *)
Variable cosine_similarities : str -> list str -> result (list Q).

(** [numpy.ndarray.argsort()]: the indices that sort the array. *)
Variable argsort : list Q -> list nat.

(** [search_relevant_text(query, texts)] *)
Definition search_relevant_text (query : str) (texts : list str)
    : result (list str) :=
  (sims <- cosine_similarities query texts ;;
   let top_indices := reversed (last_three (argsort sims)) in
   comprehension (fun i => getitem texts i) top_indices)%result.

End Ranker.

(** What numpy documents of [argsort]: the result holds every index once,
    and reading the array through it gives ascending values. The order of
    equal values is left to the sorting algorithm. *)
Definition argsort_permutes (argsort : list Q -> list nat) : Prop :=
  forall a, Permutation (argsort a) (seq 0 (length a)).

Definition argsort_ascending (argsort : list Q -> list nat) : Prop :=
  forall a, StronglySorted (fun i j => (score a i <= score a j)%Q) (argsort a).

(** A stable [argsort] keeps equal values in index order. *)
Definition argsort_stable (argsort : list Q -> list nat) : Prop :=
  forall a,
    StronglySorted (fun i j => (score a i == score a j)%Q -> i < j) (argsort a).

(** One similarity per text. *)
Definition one_per_text (cosine_similarities : str -> list str -> result (list Q))
    : Prop :=
  forall query texts sims,
    cosine_similarities query texts = Return sims ->
    length sims = length texts.

(** Insertion sort on indices: one [argsort] that meets the contract, and
    a stable one. It is an instance for the examples; numpy's default
    sort need not order equal values this way. *)
Fixpoint insert_index (a : list Q) (i : nat) (sorted : list nat) : list nat :=
  match sorted with
  | [] => [i]
  | j :: rest =>
      if Qle_bool (score a i) (score a j) then i :: sorted
      else j :: insert_index a i rest
  end.

Definition insertion_argsort (a : list Q) : list nat :=
  fold_right (insert_index a) [] (seq 0 (length a)).

(** Orders on the indices of a ranking. *)
Definition descending (a : list Q) (top : list nat) : Prop :=
  StronglySorted (fun i j => (score a j <= score a i)%Q) top.

Definition ties_earlier_first (a : list Q) (top : list nat) : Prop :=
  StronglySorted (fun i j => (score a i == score a j)%Q -> i < j) top.

Definition ties_later_first (a : list Q) (top : list nat) : Prop :=
  StronglySorted (fun i j => (score a i == score a j)%Q -> j < i) top.

(** [i] comes before [j] in a stable ascending sort: by value, equal
    values by index. *)
Definition sorts_before (a : list Q) (i j : nat) : Prop :=
  (score a i < score a j)%Q \/ ((score a i == score a j)%Q /\ i < j).

(** The texts at the given indices. *)
Definition texts_at (texts : list str) (top : list nat) : list str :=
  map (fun i => nth i texts []) top.

(* ================================================================== *)
(** ** The endpoint *)

(** The classes the [except] clauses name, and the class of a raised
    exception. [fastapi.HTTPException] derives from [Exception]. *)
Inductive exn_class : Type :=
| ClsException
| ClsHTTPException
| ClsFileNotFoundError
| ClsOpenAIError
| ClsIndexError.

Definition class_of (e : exn) : exn_class :=
  match e with
  | HTTPException _ _ => ClsHTTPException
  | FileNotFoundError _ => ClsFileNotFoundError
  | OpenAIError _ => ClsOpenAIError
  | IndexError _ => ClsIndexError
  | OtherException _ => ClsException
  end.

Definition issubclass (c d : exn_class) : bool :=
  match d, c with
  | ClsException, _ => true
  | ClsHTTPException, ClsHTTPException => true
  | ClsFileNotFoundError, ClsFileNotFoundError => true
  | ClsOpenAIError, ClsOpenAIError => true
  | ClsIndexError, ClsIndexError => true
  | _, _ => false
  end.

Definition isinstance (e : exn) (c : exn_class) : bool :=
  issubclass (class_of e) c.

(** Calls that leave the process, in the order they are made. *)
Inductive event : Type :=
| OsPathExists (path : str)
| OpenDocument (path : str)
| ChatCompletionCreate (content : str).

(** The collaborators of one request. [chat_completion n content] is
    [response['choices'][0]['message']['content']] for the call number
    [n] (from 0) with the user message [content], or what the call or the
    indexing raises. *)
Record World : Type := {
  os_path_exists : str -> bool;
  open_document : str -> result Document;
  chat_completion : nat -> str -> result str
}.

(** Code that may raise and may call out: it extends the trace. *)
Definition IO (A : Type) : Type := list event -> result A * list event.

Definition io_return {A : Type} (a : A) : IO A := fun t => (Return a, t).

Definition io_raise {A : Type} (e : exn) : IO A := fun t => (Raise e, t).

Definition io_bind {A B : Type} (m : IO A) (f : A -> IO B) : IO B :=
  fun t =>
    match m t with
    | (Return a, t') => f a t'
    | (Raise e, t') => (Raise e, t')
    end.

Definition io_lift {A : Type} (r : result A) : IO A := fun t => (r, t).

(** [try: body  except ...: handler] *)
Definition try_except {A : Type} (body : IO A) (handler : exn -> IO A) : IO A :=
  fun t =>
    match body t with
    | (Return a, t') => (Return a, t')
    | (Raise e, t') => handler e t'
    end.

Declare Scope io_scope.
Delimit Scope io_scope with io.
Notation "x <- m ;; k" := (io_bind m (fun x => k))
  (at level 61, m at next level, right associativity) : io_scope.
Notation "m ;; k" := (io_bind m (fun _ => k))
  (at level 61, right associativity) : io_scope.

Definition chat_calls (t : list event) : nat :=
  length (filter (fun ev => match ev with ChatCompletionCreate _ => true | _ => false end) t).

(** A Python [dict] with [str] keys and values, in insertion order. *)
Definition dict := list (str * str).

(** [d[key] = value] *)
Fixpoint setitem (d : dict) (key value : str) : dict :=
  match d with
  | [] => [(key, value)]
  | (k, v) :: d' =>
      if PyStr.eqb k key then (k, value) :: d' else (k, v) :: setitem d' key value
  end.

(** [d[key]] *)
Fixpoint getitem_dict (d : dict) (key : str) : result str :=
  match d with
  | [] => Raise (OtherException key)
  | (k, v) :: d' => if PyStr.eqb k key then Return v else getitem_dict d' key
  end.

Definition queries : dict :=
  [(u "current_situation", u "業界の現状を説明してください。");
   (u "future_outlook", u "業界の将来の見立てを説明してください。");
   (u "investment_advantages", u "業界への投資メリットを教えてください。");
   (u "investment_disadvantages", u "業界への投資デメリットを教えてください。");
   (u "value_up_hypothesis", u "業界におけるDXによるバリューアップ仮説を説明してください。")].

Definition initial_summaries : dict :=
  [(u "current_situation", []);
   (u "future_outlook", []);
   (u "investment_advantages", []);
   (u "investment_disadvantages", []);
   (u "value_up_hypothesis", [])].

Definition detail_missing_industry : str :=
  u "レポートが表示されていません。業界名を指定してください。".

Definition detail_file_not_found : str :=
  u "指定されたファイルが見つかりません。".

Definition detail_metric_not_found : str :=
  u "企業価値/EBITDA倍率の中央値が見つかりません。".

Definition newline : char := 0x0A%N.

(** [f"app/{industry}.docx"] *)
Definition file_path_of (industry : str) : str :=
  u "app/" ++ industry ++ u ".docx".

(** [[paragraph.text for paragraph in document.paragraphs
      if paragraph.text.strip()]] *)
Definition nonblank_paragraphs (document : Document) : list str :=
  filter (fun text => match strip text with [] => false | _ => true end)
         (paragraphs document).

Section Endpoint.

Variable cosine_similarities : str -> list str -> result (list Q).
Variable argsort : list Q -> list nat.

(** [str(e)] for an [HTTPException] with the given status and detail
    (it differs between versions of Starlette). *)
Variable HTTPException_str : Z -> str -> str.

Variable world : World.

(** [str(e)] *)
Definition exn_str (e : exn) : str :=
  match e with
  | HTTPException status_code detail => HTTPException_str status_code detail
  | FileNotFoundError msg => msg
  | OpenAIError msg => msg
  | IndexError msg => msg
  | OtherException msg => msg
  end.

Definition call_os_path_exists (path : str) : IO bool :=
  fun t => (Return (os_path_exists world path), t ++ [OsPathExists path]).

Definition call_Document (path : str) : IO Document :=
  fun t => (open_document world path, t ++ [OpenDocument path]).

Definition call_ChatCompletion_create (content : str) : IO str :=
  fun t => (chat_completion world (chat_calls t) content,
            t ++ [ChatCompletionCreate content]).

(** [for key, query in queries.items(): ...] *)
Fixpoint summarize_each (items : dict) (paragraphs : list str)
    (summaries : dict) : IO dict :=
  match items with
  | [] => io_return summaries
  | (key, query) :: items' =>
      (relevant_paragraphs <-
         io_lift (search_relevant_text cosine_similarities argsort
                    query paragraphs) ;;
       let relevant_text := join [newline] relevant_paragraphs in
       content <-
         call_ChatCompletion_create
           (relevant_text ++ [newline; newline]
            ++ u "上記の内容を要約し、以下の質問に回答してください："
            ++ query ++ u " トークン数は50以内でお願いします。") ;;
       summarize_each items' paragraphs (setitem summaries key (strip content)))%io
  end.

(** The body of the [try] statement. *)
Definition try_body (industry : str) : IO dict :=
  (let file_path := file_path_of industry in
   found <- call_os_path_exists file_path ;;
   (if negb found
    then io_raise (HTTPException 404 detail_file_not_found)
    else io_return tt) ;;
   document <- call_Document file_path ;;
   let paragraphs := nonblank_paragraphs document in
   summaries <- summarize_each queries paragraphs initial_summaries ;;
   ev_ebitda_median <- io_lift (extract_ev_ebitda_median document) ;;
   match ev_ebitda_median with
   | None => io_raise (HTTPException 404 detail_metric_not_found)
   | Some median =>
       s1 <- io_lift (getitem_dict summaries (u "current_situation")) ;;
       s2 <- io_lift (getitem_dict summaries (u "future_outlook")) ;;
       s3 <- io_lift (getitem_dict summaries (u "investment_advantages")) ;;
       s4 <- io_lift (getitem_dict summaries (u "investment_disadvantages")) ;;
       s5 <- io_lift (getitem_dict summaries (u "value_up_hypothesis")) ;;
       io_return
         [(u "current_situation", s1);
          (u "future_outlook", s2);
          (u "investment_advantages", s3);
          (u "investment_disadvantages", s4);
          (u "value_up_hypothesis", s5);
          (u "ev_ebitda_median", median)]
   end)%io.

(** The [except] clauses, tried in order. *)
Definition except_clauses (e : exn) : IO dict :=
  if isinstance e ClsFileNotFoundError then
    io_raise (HTTPException 404 detail_file_not_found)
  else if isinstance e ClsOpenAIError then
    io_raise (HTTPException 500 (u "OpenAI APIエラー: " ++ exn_str e))
  else if isinstance e ClsException then
    io_raise (HTTPException 500 (exn_str e))
  else io_raise e.

(** [summarize_preset_file(industry)]; [None] is the absent query
    parameter ([Query(None)]). *)
Definition summarize_preset_file (industry : option str) : IO dict :=
  match industry with
  | None => io_raise (HTTPException 400 detail_missing_industry)
  | Some industry => try_except (try_body industry) except_clauses
  end.

End Endpoint.

(** The status of the HTTP response FastAPI builds from the outcome of
    the endpoint function. *)
Definition response_status {A : Type} (r : result A) : Z :=
  match r with
  | Return _ => 200
  | Raise (HTTPException status_code _) => status_code
  | Raise _ => 500
  end.

(** The [detail] of an error response. *)
Definition response_detail {A : Type} (r : result A) : option str :=
  match r with
  | Raise (HTTPException _ detail) => Some detail
  | _ => None
  end.

(* ================================================================== *)
(** ** Vocabulary of the properties *)

(** The rows of a document in document order. *)
Definition rows_in_order (document : Document) : list Row :=
  concat (tables document).

(** The row is labelled as the median row: its first cell, stripped,
    contains the label. *)
Definition is_median_row (row : Row) : bool :=
  match map strip row with
  | [] => false
  | first :: _ => contains (u "中央値") first
  end.

(** The text of the last cell of a row, stripped. *)
Definition value_text (row : Row) : str := last (map strip row) [].

(** The match a row yields: that of its last cell when the row is a
    median row, nothing otherwise. *)
Definition yields (row : Row) : option str :=
  if is_median_row row then search pattern (value_text row) else None.

Definition unit_suffix : char := 0x500D%N.

(** Ranking and summarising succeed for each of the five topics, when
    the loop starts after the events [t]. *)
Definition summaries_collected
    (cosine_similarities : str -> list str -> result (list Q))
    (argsort : list Q -> list nat) (world : World)
    (paragraph_texts : list str) (t : list event) : Prop :=
  exists summaries,
    fst (summarize_each cosine_similarities argsort world queries
           paragraph_texts initial_summaries t)
    = Return summaries.

(** A multiple as the pattern reads it: one to three digits, then
    nothing or a point and at least one digit, then the suffix. *)
Definition is_multiple (m : str) : Prop :=
  exists ints frac,
    m = ints ++ frac ++ [unit_suffix]
    /\ 1 <= length ints <= 3
    /\ Forall (fun c => isdecimal c = true) ints
    /\ (frac = [] \/
        exists digits, frac = 0x2E%N :: digits /\ digits <> []
                       /\ Forall (fun c => isdecimal c = true) digits).

(** [m] occurs in [s] as a run of consecutive characters. *)
Definition occurs_in (m s : str) : Prop :=
  exists before after, s = before ++ m ++ after.

(** The rest of the pattern after the integer digits: the optional
    fraction, then the suffix. *)
Definition after_integer (s : str) : option str :=
  match_here
    (OPTIONAL (SUBPATTERN (SEQ (IN (LITERAL 0x2E))
                               (MAX_REPEAT 1 None CATEGORY_DIGIT))))
    s (fun s' => match_here (IN (LITERAL 0x500D)) s' (fun rest => Some rest)).

(** The message sent to the model for one topic. *)
Definition prompt_for (query : str) (relevant_paragraphs : list str) : str :=
  join [newline] relevant_paragraphs ++ [newline; newline]
  ++ u "上記の内容を要約し、以下の質問に回答してください："
  ++ query ++ u " トークン数は50以内でお願いします。".

(** The record the endpoint returns, read from the summaries. *)
Definition response_record (summaries : dict) (median : str) : result dict :=
  (s1 <- getitem_dict summaries (u "current_situation") ;;
   s2 <- getitem_dict summaries (u "future_outlook") ;;
   s3 <- getitem_dict summaries (u "investment_advantages") ;;
   s4 <- getitem_dict summaries (u "investment_disadvantages") ;;
   s5 <- getitem_dict summaries (u "value_up_hypothesis") ;;
   Return [(u "current_situation", s1);
           (u "future_outlook", s2);
           (u "investment_advantages", s3);
           (u "investment_disadvantages", s4);
           (u "value_up_hypothesis", s5);
           (u "ev_ebitda_median", median)])%result.

(** The events before the first model call. *)
Definition loaded (industry : str) : list event :=
  [OsPathExists (file_path_of industry); OpenDocument (file_path_of industry)].

(** No match of the pattern starts at a character of [before] in the
    text [before ++ rest]: the search gets as far as [rest]. *)
Fixpoint no_match_starts_in (before rest : str) : bool :=
  match before with
  | [] => true
  | _ :: before' =>
      match match_here pattern (before ++ rest) (fun left => Some left) with
      | Some _ => false
      | None => no_match_starts_in before' rest
      end
  end.

(* ================================================================== *)
(** ** Sample inputs *)

Module Sample.

(** Two tables, each with a median row. *)
Definition two_medians : Document :=
  {| paragraphs := [u "売上高"; u "市場規模"];
     tables := [ [ [u "指標"; u "PER"; u "EV/EBITDA"];
                   [u "中央値"; u "15.2倍"; u " 7倍 "] ];
                 [ [u "中央値"; u "9倍"] ] ] |}.


(** A median row whose value has four digits. *)
Definition four_digits : Document :=
  {| paragraphs := [u "売上高"];
     tables := [ [ [u "中央値"; u "1234倍"] ] ] |}.

(** A document with paragraphs and no median row. *)
Definition no_median : Document :=
  {| paragraphs := [u "売上高"; u " "; u "市場規模"];
     tables := [ [ [u "平均値"; u "6.1倍"] ] ] |}.

(** The similarities when no text shares a term with the query. *)
Definition no_overlap (query : str) (texts : list str) : result (list Q) :=
  Return (map (fun _ => 0%Q) texts).

(** [str(e)] of an [HTTPException] in recent Starlette:
    [f"{status_code}: {detail}"], the status being one of those the
    program uses. *)
Definition starlette_str (status_code : Z) (detail : str) : str :=
  (if (status_code =? 404)%Z then u "404"
   else if (status_code =? 400)%Z then u "400" else u "500")
  ++ u ": " ++ detail.

(** Every file exists and holds [document]; the model answers. *)
Definition serving (document : Document) : World :=
  {| os_path_exists := fun _ => true;
     open_document := fun _ => Return document;
     chat_completion := fun _ _ => Return (u " 要約 ") |}.

(** No file exists. *)
Definition empty_disk : World :=
  {| os_path_exists := fun _ => false;
     open_document := fun _ => Raise (OtherException (u "Package not found"));
     chat_completion := fun _ _ => Return (u " 要約 ") |}.

(** A median row whose value has another unit. *)
Definition other_unit : Document :=
  {| paragraphs := [u "売上高"];
     tables := [ [ [u "指標"; u "EV/EBITDA"]; [u "中央値"; u "8.4x"] ] ] |}.

(** A row without cells before a median row. *)
Definition row_without_cells : Document :=
  {| paragraphs := [u "売上高"];
     tables := [ [ [u "平均値"; u "6.1倍"]; [] ];
                 [ [u "中央値"; u "8.4倍"] ] ] |}.

(** The first [n] of the given similarities, then zeros. *)
Fixpoint grades (n : nat) (cycle : list Q) : list Q :=
  match n with
  | 0 => []
  | S n' =>
      match cycle with
      | [] => 0%Q :: grades n' []
      | g :: cycle' => g :: grades n' cycle'
      end
  end.

(** Similarities 0.5, 0.1, 0.5, 0.3, 0.1 for the first five texts. *)
Definition graded (query : str) (texts : list str) : result (list Q) :=
  Return (grades (length texts) [0.5; 0.1; 0.5; 0.3; 0.1]%Q).

(** The file is there for the existence test and gone when opened. *)
Definition vanishing_file : World :=
  {| os_path_exists := fun _ => true;
     open_document := fun _ => Raise (FileNotFoundError (u "No such file"));
     chat_completion := fun _ _ => Return (u " 要約 ") |}.

(** The third model call fails. *)
Definition rate_limited (document : Document) : World :=
  {| os_path_exists := fun _ => true;
     open_document := fun _ => Return document;
     chat_completion := fun n _ =>
       if (n =? 2)%nat then Raise (OpenAIError (u "rate limit"))
       else Return (u "要約") |}.

(** A median row whose value has four digits after the point. *)
Definition fraction_digits : Document :=
  {| paragraphs := [u "売上高"];
     tables := [ [ [u "中央値"; u "12.3456倍"] ] ] |}.

(** A median row whose last cell has a multiple before the four digits. *)
Definition earlier_multiple : Document :=
  {| paragraphs := [u "売上高"];
     tables := [ [ [u "中央値"; u "5倍 1234倍"] ] ] |}.

(** A median row whose last cell has a year before the four digits. *)
Definition year_then_digits : Document :=
  {| paragraphs := [u "売上高"];
     tables := [ [ [u "中央値"; u "2023年 1234倍"] ] ] |}.

End Sample.

(* ================================================================== *)
(** ** Results: the table metric extractor *)

Lemma scan_rows_app (rows1 rows2 : list Row) :
  scan_rows (rows1 ++ rows2) =
  (r <- scan_rows rows1 ;;
   match r with
   | Some m => Return (Some m)
   | None => scan_rows rows2
   end)%result.
Proof.
  induction rows1 as [|row rows1 IH]; simpl.
  - destruct (scan_rows rows2) as [[m|]|e]; reflexivity.
  - destruct (check_row row) as [[m|]|e]; simpl; auto.
Qed.

(** The two nested loops visit the rows in document order. *)
Lemma scan_tables_concat (ts : list Table) :
  scan_tables ts = scan_rows (concat ts).
Proof.
  induction ts as [|t ts IH]; simpl; [reflexivity|].
  rewrite scan_rows_app, IH. reflexivity.
Qed.

Lemma extract_rows_in_order (document : Document) :
  extract_ev_ebitda_median document = scan_rows (rows_in_order document).
Proof. apply scan_tables_concat. Qed.

(** On a row with at least one cell, the loop body returns what the row
    yields. *)
Lemma check_row_yields (row : Row) :
  row <> [] -> check_row row = Return (yields row).
Proof.
  intros Hne. unfold check_row, yields, is_median_row, value_text.
  destruct row as [|c row]; [congruence|]. simpl map. cbn [getitem nth_error bind].
  destruct (contains (u "中央値") (strip c)); [|reflexivity].
  destruct (search pattern _); reflexivity.
Qed.

Lemma median_row_has_cells (row : Row) : is_median_row row = true -> row <> [].
Proof. destruct row; [discriminate|congruence]. Qed.

Lemma yields_has_cells (row : Row) (m : str) : yields row = Some m -> row <> [].
Proof.
  unfold yields. destruct (is_median_row row) eqn:E; [|discriminate].
  intros _. now apply median_row_has_cells.
Qed.

(** Rows that have cells and yield nothing are passed over. *)
Lemma scan_rows_skip (pre rest : list Row) :
  Forall (fun row => row <> []) pre ->
  Forall (fun row => yields row = None) pre ->
  scan_rows (pre ++ rest) = scan_rows rest.
Proof.
  induction 1 as [|row pre Hne _ IH]; intros Hy; [reflexivity|].
  inversion Hy as [|? ? Hrow Hpre]; subst. simpl.
  rewrite (check_row_yields _ Hne), Hrow. simpl. auto.
Qed.

Lemma scan_rows_first (pre : list Row) (row : Row) (post : list Row) (m : str) :
  Forall (fun row => row <> []) pre ->
  Forall (fun row => yields row = None) pre ->
  yields row = Some m ->
  scan_rows (pre ++ row :: post) = Return (Some m).
Proof.
  intros Hne Hy Hrow. rewrite (scan_rows_skip _ _ Hne Hy). simpl.
  rewrite (check_row_yields _ (yields_has_cells _ _ Hrow)), Hrow. reflexivity.
Qed.


(** *** The pattern on runs of digits *)

Lemma decimal_not_dot (c : char) : isdecimal c = true -> (0x2E =? c)%N = false.
Proof.
  intros H. destruct (N.eqb_spec 0x2E c) as [<-|]; [|reflexivity].
  vm_compute in H. discriminate.
Qed.

Lemma decimal_not_suffix (c : char) :
  isdecimal c = true -> (unit_suffix =? c)%N = false.
Proof.
  intros H. destruct (N.eqb_spec unit_suffix c) as [<-|]; [|reflexivity].
  vm_compute in H. discriminate.
Qed.

Ltac regex_step :=
  cbn [match_here repeat_one item_matches may_take one_less pred Nat.eqb andb].

(** No match starts at a character that is not a digit. *)
Lemma match_here_not_digit (c : char) (s : str) :
  isdecimal c = false -> match_here pattern (c :: s) (fun rest => Some rest) = None.
Proof.
  intros H. unfold pattern. regex_step. rewrite H. reflexivity.
Qed.

(** No match starts at a digit that three more digits follow: after one,
    two or three digits the next character is a digit, neither the point
    nor the suffix. *)
Lemma match_here_four_digits (d1 d2 d3 d4 : char) (s : str) :
  isdecimal d1 = true -> isdecimal d2 = true ->
  isdecimal d3 = true -> isdecimal d4 = true ->
  match_here pattern (d1 :: d2 :: d3 :: d4 :: s) (fun rest => Some rest) = None.
Proof.
  intros H1 H2 H3 H4. unfold pattern. regex_step.
  rewrite H1, H2, H3, H4. regex_step.
  change 46%N with 0x2E%N. change 20493%N with unit_suffix.
  rewrite (decimal_not_dot _ H4), (decimal_not_suffix _ H4).
  rewrite (decimal_not_dot _ H3), (decimal_not_suffix _ H3).
  rewrite (decimal_not_dot _ H2), (decimal_not_suffix _ H2).
  reflexivity.
Qed.

(** Three digits before the suffix match, and the match ends after the
    suffix. *)
Lemma match_here_three_digits (d1 d2 d3 : char) (s : str) :
  isdecimal d1 = true -> isdecimal d2 = true -> isdecimal d3 = true ->
  match_here pattern (d1 :: d2 :: d3 :: unit_suffix :: s) (fun rest => Some rest)
  = Some s.
Proof.
  intros H1 H2 H3. unfold pattern. regex_step.
  rewrite H1, H2, H3. regex_step.
  replace (isdecimal unit_suffix) with false by (vm_compute; reflexivity).
  regex_step. reflexivity.
Qed.

Lemma search_skip_not_digits (prefix s : str) :
  Forall (fun c => isdecimal c = false) prefix ->
  search pattern (prefix ++ s) = search pattern s.
Proof.
  induction 1 as [|c prefix Hc _ IH]; [reflexivity|].
  cbn [app search]. rewrite (match_here_not_digit _ _ Hc). exact IH.
Qed.

Lemma last_three_cons {A : Type} (x : A) (l : list A) :
  3 <= length l -> last_three (x :: l) = last_three l.
Proof.
  intros H. unfold last_three. cbn [length].
  replace (S (length l) - 3) with (S (length l - 3)) by lia. reflexivity.
Qed.

(** In a run of four or more digits before the suffix, the leftmost match
    starts at the third digit from the end. *)
Lemma search_digit_run (digits suffix : str) :
  Forall (fun c => isdecimal c = true) digits ->
  4 <= length digits ->
  search pattern (digits ++ unit_suffix :: suffix)
  = Some (last_three digits ++ [unit_suffix]).
Proof.
  induction 1 as [|d1 ds H1 Hds IH]; cbn [length]; [lia|].
  intros Hlen.
  destruct ds as [|d2 [|d3 [|d4 rest]]]; cbn [length] in Hlen; try lia.
  inversion Hds as [|? ? H2 Hds2]; subst.
  inversion Hds2 as [|? ? H3 Hds3]; subst.
  inversion Hds3 as [|? ? H4 Hds4]; subst.
  cbn [app search].
  change ((d1 :: d2 :: d3 :: d4 :: rest) ++ unit_suffix :: suffix)
    with (d1 :: d2 :: d3 :: d4 :: (rest ++ unit_suffix :: suffix)).
  rewrite (match_here_four_digits _ _ _ _ _ H1 H2 H3 H4).
  rewrite last_three_cons by (cbn [length]; lia).
  destruct rest as [|d5 rest].
  - cbn [app]. cbn [search].
    rewrite (match_here_three_digits _ _ _ _ H2 H3 H4).
    cbn [length]. replace (S (S (S (S (length suffix)))) - length suffix) with 4 by lia.
    reflexivity.
  - apply IH. cbn [length]. lia.
Qed.

(** *** Claims about the extractor *)

(** C7. For every document whose table sequence is empty,
    [extract_ev_ebitda_median] returns [None]. *)
Theorem extract_no_tables (paragraph_texts : list str) :
  extract_ev_ebitda_median {| paragraphs := paragraph_texts; tables := [] |}
  = Return None.
Proof. reflexivity. Qed.

(** C4. First match wins. When the rows of the document, read table by
    table, are [pre], then a median row that yields [m], then any later
    rows (of the same or of later tables, median rows with other values
    among them), and no row of [pre] yields a match, the extractor returns
    [m]: the later rows play no part. With "7倍" in an earlier table and
    "9倍" in a later one the result is "7倍". *)
Theorem extract_first_match
    (document : Document) (pre : list Row) (earliest : Row)
    (later : list Row) (m : str) :
  rows_in_order document = pre ++ earliest :: later ->
  Forall (fun row => row <> []) pre ->
  Forall (fun row => yields row = None) pre ->
  yields earliest = Some m ->
  extract_ev_ebitda_median document = Return (Some m).
Proof.
  intros Hrows Hne Hpre Hm.
  rewrite extract_rows_in_order, Hrows.
  now apply scan_rows_first.
Qed.

Lemma extract_first_match_witness :
  extract_ev_ebitda_median Sample.two_medians = Return (Some (u "7倍")).
Proof.
  apply (extract_first_match Sample.two_medians
           [[u "指標"; u "PER"; u "EV/EBITDA"]]
           [u "中央値"; u "15.2倍"; u " 7倍 "]
           [[u "中央値"; u "9倍"]]).
  - reflexivity.
  - repeat constructor. discriminate.
  - repeat constructor.
  - vm_compute. reflexivity.
Defined.



Lemma last_three_length {A : Type} (l : list A) :
  3 <= length l -> length (last_three l) = 3.
Proof. intros H. unfold last_three. rewrite length_skipn. lia. Qed.

(** The search passes over the characters at which no match starts. *)
Lemma search_skip_no_match (before rest : str) :
  no_match_starts_in before rest = true ->
  search pattern (before ++ rest) = search pattern rest.
Proof.
  induction before as [|c before IH]; [reflexivity|].
  cbn [no_match_starts_in]. cbn [app search].
  change (c :: before ++ rest) with ((c :: before) ++ rest).
  destruct (match_here pattern ((c :: before) ++ rest) (fun left => Some left));
    [discriminate|].
  exact IH.
Qed.

(** No match starts in a text without digits, whatever follows. *)
Lemma not_digits_no_match (before rest : str) :
  Forall (fun c => isdecimal c = false) before ->
  no_match_starts_in before rest = true.
Proof.
  induction 1 as [|c before Hc _ IH]; [reflexivity|].
  cbn [no_match_starts_in app].
  rewrite (match_here_not_digit _ _ Hc). exact IH.
Qed.

(** C10, as stated, fails. In "12.3456倍" the four digits before the
    suffix are the fraction of a number that matches whole, and the
    extractor returns "12.3456倍", not "456倍"; in "5倍 1234倍" a multiple
    comes before the run and the extractor returns "5倍", not "234倍". *)
Lemma extract_long_digit_run_counterexample :
  (is_median_row [u "中央値"; u "12.3456倍"] = true
   /\ value_text [u "中央値"; u "12.3456倍"]
      = u "12." ++ u "3456" ++ unit_suffix :: []
   /\ Forall (fun c => isdecimal c = true) (u "3456")
   /\ 4 <= length (u "3456")
   /\ extract_ev_ebitda_median Sample.fraction_digits
      = Return (Some (u "12.3456倍"))
   /\ extract_ev_ebitda_median Sample.fraction_digits
      <> Return (Some (last_three (u "3456") ++ [unit_suffix])))
  /\
  (is_median_row [u "中央値"; u "5倍 1234倍"] = true
   /\ value_text [u "中央値"; u "5倍 1234倍"]
      = u "5倍 " ++ u "1234" ++ unit_suffix :: []
   /\ Forall (fun c => isdecimal c = true) (u "1234")
   /\ 4 <= length (u "1234")
   /\ extract_ev_ebitda_median Sample.earlier_multiple
      = Return (Some (u "5倍"))
   /\ extract_ev_ebitda_median Sample.earlier_multiple
      <> Return (Some (last_three (u "1234") ++ [unit_suffix]))).
Proof.
  split.
  - split; [vm_compute; reflexivity|].
    split; [vm_compute; reflexivity|].
    split; [repeat constructor|].
    split; [vm_compute; constructor|].
    split; [vm_compute; reflexivity|].
    intros Heq. vm_compute in Heq. discriminate Heq.
  - split; [vm_compute; reflexivity|].
    split; [vm_compute; reflexivity|].
    split; [repeat constructor|].
    split; [vm_compute; constructor|].
    split; [vm_compute; reflexivity|].
    intros Heq. vm_compute in Heq. discriminate Heq.
Qed.

(** C10, amended. The pattern is not anchored at the start of a run of
    digits. When the last cell of the first yielding median row is some
    text, then four or more digits, then the suffix (and anything after
    it), and no match of the pattern starts in the text before the run
    (the run is not the fraction of a decimal number, and no multiple
    stands before it), the extractor returns the last three digits of the
    run with the suffix: three digits, so neither the whole number nor
    [None]. For "1234倍" and for "2023年 1234倍" it returns "234倍". *)
Theorem extract_unanchored_digit_run
    (document : Document) (pre : list Row) (row : Row) (post : list Row)
    (before digits after : str) :
  rows_in_order document = pre ++ row :: post ->
  Forall (fun r => r <> []) pre ->
  Forall (fun r => yields r = None) pre ->
  is_median_row row = true ->
  value_text row = before ++ digits ++ unit_suffix :: after ->
  no_match_starts_in before (digits ++ unit_suffix :: after) = true ->
  Forall (fun c => isdecimal c = true) digits ->
  4 <= length digits ->
  extract_ev_ebitda_median document
  = Return (Some (last_three digits ++ [unit_suffix])) /\
  length (last_three digits) = 3 /\
  last_three digits ++ [unit_suffix] <> digits ++ [unit_suffix].
Proof.
  intros Hrows Hne Hpre Hlab Htext Hbefore Hdigits Hlen.
  assert (Hthree : length (last_three digits) = 3)
    by (apply last_three_length; lia).
  split; [|split; [exact Hthree|]].
  - rewrite extract_rows_in_order, Hrows.
    apply scan_rows_first; try assumption.
    unfold yields. rewrite Hlab, Htext.
    rewrite search_skip_no_match by assumption.
    now apply search_digit_run.
  - intros Heq. apply (f_equal (@length _)) in Heq.
    rewrite !length_app, Hthree in Heq. cbn [length] in Heq. lia.
Qed.

Lemma extract_unanchored_digit_run_witness :
  extract_ev_ebitda_median Sample.year_then_digits
  = Return (Some (u "234倍")).
Proof.
  apply (extract_unanchored_digit_run Sample.year_then_digits
           [] [u "中央値"; u "2023年 1234倍"] []
           (u "2023年 ") (u "1234") []).
  - reflexivity.
  - constructor.
  - constructor.
  - vm_compute. reflexivity.
  - vm_compute. reflexivity.
  - vm_compute. reflexivity.
  - repeat constructor.
  - vm_compute. constructor.
Defined.

(* ================================================================== *)
(** ** Results: the ranker *)

(** *** Slices and orders *)

Lemma StronglySorted_weaken {A : Type} (R R' : A -> A -> Prop) (l : list A) :
  (forall x y, R x y -> R' x y) ->
  StronglySorted R l -> StronglySorted R' l.
Proof.
  intros Himp. induction 1 as [|x l _ IH Hx]; constructor; [exact IH|].
  eapply Forall_impl; [|exact Hx]. intros y. apply Himp.
Qed.

Lemma StronglySorted_skipn {A : Type} (R : A -> A -> Prop) (n : nat) (l : list A) :
  StronglySorted R l -> StronglySorted R (skipn n l).
Proof.
  revert l. induction n as [|n IH]; intros l Hs; [exact Hs|].
  destruct l as [|x l]; [constructor|].
  apply IH. now inversion Hs.
Qed.

Lemma StronglySorted_snoc {A : Type} (R : A -> A -> Prop) (l : list A) (x : A) :
  StronglySorted R l -> Forall (fun y => R y x) l ->
  StronglySorted R (l ++ [x]).
Proof.
  induction 1 as [|y l Hs IH Hy]; intros Hall; cbn [app].
  - repeat constructor.
  - inversion Hall as [|? ? Hyx Hall']; subst.
    constructor; [now apply IH|].
    apply Forall_app. split; [exact Hy|]. now constructor.
Qed.

(** Reversing a sorted list sorts it the other way round. *)
Lemma StronglySorted_rev {A : Type} (R : A -> A -> Prop) (l : list A) :
  StronglySorted R l -> StronglySorted (fun x y => R y x) (rev l).
Proof.
  induction 1 as [|x l _ IH Hx]; cbn [rev]; [constructor|].
  apply StronglySorted_snoc; [exact IH|].
  apply Forall_rev. exact Hx.
Qed.

Lemma last_three_sorted {A : Type} (R : A -> A -> Prop) (l : list A) :
  StronglySorted R l ->
  StronglySorted (fun x y => R y x) (reversed (last_three l)).
Proof.
  intros Hs. apply StronglySorted_rev. now apply StronglySorted_skipn.
Qed.

Lemma last_three_incl {A : Type} (l : list A) (x : A) :
  In x (reversed (last_three l)) -> In x l.
Proof.
  unfold reversed, last_three. rewrite <- in_rev. intros Hin.
  rewrite <- (firstn_skipn (length l - 3) l). apply in_or_app. now right.
Qed.

Lemma last_three_at_most {A : Type} (l : list A) :
  length (reversed (last_three l)) <= 3.
Proof.
  unfold reversed, last_three. rewrite length_rev, length_skipn. lia.
Qed.

Lemma last_three_short {A : Type} (l : list A) :
  length l <= 3 -> last_three l = l.
Proof.
  intros H. unfold last_three.
  replace (length l - 3) with 0 by lia. reflexivity.
Qed.

(** *** Reading texts through indices *)

Lemma comprehension_getitem (texts : list str) (top : list nat) :
  Forall (fun i => i < length texts) top ->
  comprehension (fun i => getitem texts i) top = Return (texts_at texts top).
Proof.
  induction 1 as [|i top Hi _ IH]; [reflexivity|].
  cbn [comprehension texts_at map]. unfold getitem at 1.
  rewrite (nth_error_nth' texts [] Hi). cbn [bind].
  rewrite IH. reflexivity.
Qed.

Lemma map_nth_seq_from (texts : list str) (start : nat) :
  map (fun i => nth (i - start) texts []) (seq start (length texts)) = texts.
Proof.
  revert start. induction texts as [|t texts IH]; intros start; [reflexivity|].
  cbn [length seq map]. rewrite Nat.sub_diag. cbn [nth]. f_equal.
  rewrite <- (IH (S start)) at 2.
  apply map_ext_in. intros i Hi. apply in_seq in Hi.
  replace (i - start) with (S (i - S start)) by lia. reflexivity.
Qed.

Lemma texts_at_all (texts : list str) :
  texts_at texts (seq 0 (length texts)) = texts.
Proof.
  unfold texts_at.
  transitivity (map (fun i => nth (i - 0) texts []) (seq 0 (length texts))).
  - apply map_ext. intros i. now rewrite Nat.sub_0_r.
  - apply map_nth_seq_from.
Qed.

Lemma texts_at_incl (texts : list str) (top : list nat) (t : str) :
  Forall (fun i => i < length texts) top ->
  In t (texts_at texts top) -> In t texts.
Proof.
  intros Hall Hin. unfold texts_at in Hin. apply in_map_iff in Hin.
  destruct Hin as [i [<- Hi]]. apply nth_In.
  rewrite Forall_forall in Hall. now apply Hall.
Qed.

Lemma permutation_in_range (l : list nat) (n : nat) :
  Permutation l (seq 0 n) -> Forall (fun i => i < n) l.
Proof.
  intros Hp. apply Forall_forall. intros i Hi.
  apply (Permutation_in _ Hp) in Hi. apply in_seq in Hi. lia.
Qed.

(** *** Insertion sort is an [argsort], and a stable one *)

Lemma insert_index_permutation (a : list Q) (i : nat) (sorted : list nat) :
  Permutation (insert_index a i sorted) (i :: sorted).
Proof.
  induction sorted as [|j rest IH]; cbn [insert_index]; [reflexivity|].
  destruct (Qle_bool (score a i) (score a j)); [reflexivity|].
  rewrite IH. apply perm_swap.
Qed.

Lemma insertion_argsort_permutes : argsort_permutes insertion_argsort.
Proof.
  intros a. unfold insertion_argsort.
  induction (seq 0 (length a)) as [|i l IH]; cbn [fold_right]; [reflexivity|].
  rewrite insert_index_permutation. now constructor.
Qed.

Lemma sorts_before_le (a : list Q) (i j k : nat) :
  (score a i <= score a j)%Q -> i < k -> sorts_before a j k ->
  sorts_before a i k.
Proof.
  intros Hij Hik [Hlt|[Heq Hjk]].
  - left. eapply Qle_lt_trans; eassumption.
  - rewrite Heq in Hij. apply Qle_lt_or_eq in Hij.
    destruct Hij as [Hlt|Heq']; [now left|right; now split].
Qed.

Lemma insert_index_sorted (a : list Q) (i : nat) (sorted : list nat) :
  StronglySorted (sorts_before a) sorted ->
  Forall (fun j => i < j) sorted ->
  StronglySorted (sorts_before a) (insert_index a i sorted).
Proof.
  induction 1 as [|j rest Hs IH Hj]; intros Hlater; cbn [insert_index].
  - repeat constructor.
  - inversion Hlater as [|? ? Hij Hrest]; subst.
    destruct (Qle_bool (score a i) (score a j)) eqn:Hle.
    + apply Qle_bool_iff in Hle.
      assert (Hbefore : sorts_before a i j).
      { apply Qle_lt_or_eq in Hle. destruct Hle; [now left|right; now split]. }
      constructor; [now constructor|]. constructor; [exact Hbefore|].
      rewrite Forall_forall in *. intros k Hk.
      apply (sorts_before_le a i j k); auto.
    + assert (Hlt : (score a j < score a i)%Q).
      { apply Qnot_le_lt. intros Hc. apply Qle_bool_iff in Hc. congruence. }
      constructor; [now apply IH|].
      rewrite Forall_forall in *. intros k Hk.
      apply (Permutation_in _ (insert_index_permutation a i rest)) in Hk.
      destruct Hk as [<-|Hk]; [now left|now apply Hj].
Qed.

Lemma insertion_sorted_from (a : list Q) (start n : nat) :
  StronglySorted (sorts_before a) (fold_right (insert_index a) [] (seq start n))
  /\ Forall (fun j => start <= j) (fold_right (insert_index a) [] (seq start n)).
Proof.
  revert start. induction n as [|n IH]; intros start; cbn [seq fold_right].
  - split; constructor.
  - destruct (IH (S start)) as [Hs Hge]. split.
    + apply insert_index_sorted; [exact Hs|].
      eapply Forall_impl; [|exact Hge]. intros j Hj. exact Hj.
    + apply Forall_forall. intros j Hj.
      apply (Permutation_in _ (insert_index_permutation a start _)) in Hj.
      destruct Hj as [<-|Hj]; [lia|].
      rewrite Forall_forall in Hge. specialize (Hge j Hj). lia.
Qed.

Lemma insertion_argsort_ascending : argsort_ascending insertion_argsort.
Proof.
  intros a. unfold insertion_argsort.
  apply (StronglySorted_weaken (sorts_before a)).
  - intros i j [Hlt|[Heq _]]; [now apply Qlt_le_weak|].
    rewrite Heq. apply Qle_refl.
  - apply insertion_sorted_from.
Qed.

Lemma insertion_argsort_stable : argsort_stable insertion_argsort.
Proof.
  intros a. unfold insertion_argsort.
  apply (StronglySorted_weaken (sorts_before a)).
  - intros i j [Hlt|[_ Hij]] Heq; [|exact Hij].
    rewrite Heq in Hlt. now apply Qlt_irrefl in Hlt.
  - apply insertion_sorted_from.
Qed.

Lemma no_overlap_one_per_text : one_per_text Sample.no_overlap.
Proof.
  intros query texts sims [= <-]. apply length_map.
Qed.

(** *** Claims about the ranker *)

Section RankerResults.

Variable cosine_similarities : str -> list str -> result (list Q).
Variable argsort : list Q -> list nat.
Hypothesis similarities_per_text : one_per_text cosine_similarities.
Hypothesis argsort_is_permutation : argsort_permutes argsort.

(** When the vectoriser succeeds, the ranker returns the texts at the
    last three indices of [argsort], reversed. *)
Lemma search_relevant_text_returns (query : str) (texts : list str)
    (sims : list Q) :
  cosine_similarities query texts = Return sims ->
  search_relevant_text cosine_similarities argsort query texts
  = Return (texts_at texts (reversed (last_three (argsort sims))))
  /\ Forall (fun i => i < length texts) (reversed (last_three (argsort sims))).
Proof.
  intros Hsims.
  assert (Hrange : Forall (fun i => i < length texts)
                     (reversed (last_three (argsort sims)))).
  { apply Forall_forall. intros i Hi. apply last_three_incl in Hi.
    pose proof (permutation_in_range _ _ (argsort_is_permutation sims)) as Hall.
    rewrite Forall_forall in Hall. rewrite <- (similarities_per_text _ _ _ Hsims).
    now apply Hall. }
  split; [|exact Hrange].
  unfold search_relevant_text. rewrite Hsims. cbn [bind].
  now apply comprehension_getitem.
Qed.

End RankerResults.

(** C5. For every query and every list of paragraphs, the ranker returns
    at most three items and every returned item is one of the given
    paragraphs; it raises only what the vectoriser raises. *)
Theorem rank_at_most_three_from_input
    (cosine_similarities : str -> list str -> result (list Q))
    (argsort : list Q -> list nat) (query : str) (texts : list str) :
  one_per_text cosine_similarities ->
  argsort_permutes argsort ->
  match search_relevant_text cosine_similarities argsort query texts with
  | Return ranked => length ranked <= 3 /\ (forall t, In t ranked -> In t texts)
  | Raise e => cosine_similarities query texts = Raise e
  end.
Proof.
  intros Hlen Hperm.
  destruct (cosine_similarities query texts) as [sims|e] eqn:Hsims.
  - destruct (search_relevant_text_returns _ _ Hlen Hperm _ _ _ Hsims)
      as [Hret Hrange].
    rewrite Hret. split.
    + unfold texts_at. rewrite length_map. apply last_three_at_most.
    + intros t. now apply texts_at_incl.
  - unfold search_relevant_text. rewrite Hsims. reflexivity.
Qed.

Lemma rank_at_most_three_from_input_witness :
  match search_relevant_text Sample.no_overlap insertion_argsort
          (u "業界の現状を説明してください。")
          [u "売上高"; u "市場規模"; u "競合"; u "規制"] with
  | Return ranked =>
      length ranked <= 3 /\
      (forall t, In t ranked ->
                 In t [u "売上高"; u "市場規模"; u "競合"; u "規制"])
  | Raise e =>
      Sample.no_overlap (u "業界の現状を説明してください。")
        [u "売上高"; u "市場規模"; u "競合"; u "規制"] = Raise e
  end.
Proof.
  apply (rank_at_most_three_from_input Sample.no_overlap insertion_argsort).
  - exact no_overlap_one_per_text.
  - exact insertion_argsort_permutes.
Defined.

(** C6. For fewer than three paragraphs on which the vectoriser
    succeeds, the ranker returns all of them (each index once), in
    descending order of similarity. *)
Theorem rank_short_list_returns_all
    (cosine_similarities : str -> list str -> result (list Q))
    (argsort : list Q -> list nat) (query : str) (texts : list str)
    (sims : list Q) :
  one_per_text cosine_similarities ->
  argsort_permutes argsort ->
  argsort_ascending argsort ->
  texts <> [] ->
  length texts < 3 ->
  cosine_similarities query texts = Return sims ->
  exists top,
    search_relevant_text cosine_similarities argsort query texts
    = Return (texts_at texts top)
    /\ Permutation top (seq 0 (length texts))
    /\ Permutation (texts_at texts top) texts
    /\ descending sims top.
Proof.
  intros Hlen Hperm Hasc _ Hshort Hsims.
  destruct (search_relevant_text_returns _ _ Hlen Hperm _ _ _ Hsims)
    as [Hret _].
  exists (reversed (last_three (argsort sims))).
  assert (Hall : Permutation (reversed (last_three (argsort sims)))
                   (seq 0 (length texts))).
  { rewrite last_three_short.
    - unfold reversed. rewrite <- Permutation_rev.
      rewrite <- (Hlen _ _ _ Hsims). apply Hperm.
    - rewrite (Permutation_length (Hperm sims)), length_seq.
      rewrite (Hlen _ _ _ Hsims). lia. }
  split; [exact Hret|]. split; [exact Hall|]. split.
  - rewrite <- (texts_at_all texts) at 2. unfold texts_at.
    now apply Permutation_map.
  - apply (last_three_sorted _ _ (Hasc sims)).
Qed.

Lemma rank_short_list_returns_all_witness :
  exists top,
    search_relevant_text Sample.no_overlap insertion_argsort
      (u "業界の現状を説明してください。") [u "売上高"; u "市場規模"]
    = Return (texts_at [u "売上高"; u "市場規模"] top)
    /\ Permutation top (seq 0 2)
    /\ Permutation (texts_at [u "売上高"; u "市場規模"] top)
         [u "売上高"; u "市場規模"]
    /\ descending [0; 0]%Q top.
Proof.
  apply (rank_short_list_returns_all Sample.no_overlap insertion_argsort
           (u "業界の現状を説明してください。") [u "売上高"; u "市場規模"]
           [0; 0]%Q).
  - exact no_overlap_one_per_text.
  - exact insertion_argsort_permutes.
  - exact insertion_argsort_ascending.
  - discriminate.
  - vm_compute. repeat constructor.
  - reflexivity.
Defined.

(** C3, as stated, fails. Two paragraphs that share no term with the
    query both have similarity 0; [argsort] gives [[0; 1]], the slice
    keeps both and the reversal puts the second paragraph first. No
    reading of the result as indices in descending order with ties in
    input order exists. *)
Lemma rank_ties_in_input_order_counterexample :
  Sample.no_overlap (u "業界の現状を説明してください。") [u "売上高"; u "市場規模"]
  = Return [0; 0]%Q
  /\ search_relevant_text Sample.no_overlap insertion_argsort
       (u "業界の現状を説明してください。") [u "売上高"; u "市場規模"]
     = Return [u "市場規模"; u "売上高"]
  /\ ~ (exists top,
          search_relevant_text Sample.no_overlap insertion_argsort
            (u "業界の現状を説明してください。") [u "売上高"; u "市場規模"]
          = Return (texts_at [u "売上高"; u "市場規模"] top)
          /\ descending [0; 0]%Q top
          /\ ties_earlier_first [0; 0]%Q top).
Proof.
  split; [reflexivity|]. split; [vm_compute; reflexivity|].
  intros [top [Hret [_ Hties]]].
  assert (Hrun : search_relevant_text Sample.no_overlap insertion_argsort
                   (u "業界の現状を説明してください。") [u "売上高"; u "市場規模"]
                 = Return [u "市場規模"; u "売上高"]) by (vm_compute; reflexivity).
  rewrite Hrun in Hret. injection Hret as Hret.
  destruct top as [|i [|j [|k top]]]; try discriminate Hret.
  cbn [texts_at map] in Hret. injection Hret as Hi Hj.
  assert (i = 1) as ->.
  { destruct i as [|[|i]]; [vm_compute in Hi; discriminate|reflexivity|].
    destruct i; vm_compute in Hi; discriminate. }
  assert (j = 0) as ->.
  { destruct j as [|[|j]]; [reflexivity|vm_compute in Hj; discriminate|].
    destruct j; vm_compute in Hj; discriminate. }
  inversion Hties as [|? ? _ Hfirst]; subst.
  inversion Hfirst as [|? ? Hlt _]; subst.
  assert (H10 : 1 < 0) by (apply Hlt; reflexivity).
  lia.
Qed.

(** C3, amended. For every query and every list of paragraphs on which
    the vectoriser succeeds, the ranking is in descending order of
    similarity; and paragraphs of equal similarity come in the reverse of
    the order [argsort] gives them, so that with a stable [argsort] the
    later paragraph of the input comes first. *)
Theorem rank_descending_ties_reversed
    (cosine_similarities : str -> list str -> result (list Q))
    (argsort : list Q -> list nat) (query : str) (texts : list str)
    (sims : list Q) :
  one_per_text cosine_similarities ->
  argsort_permutes argsort ->
  argsort_ascending argsort ->
  texts <> [] ->
  cosine_similarities query texts = Return sims ->
  exists top,
    search_relevant_text cosine_similarities argsort query texts
    = Return (texts_at texts top)
    /\ top = reversed (last_three (argsort sims))
    /\ descending sims top
    /\ (argsort_stable argsort -> ties_later_first sims top).
Proof.
  intros Hlen Hperm Hasc _ Hsims.
  destruct (search_relevant_text_returns _ _ Hlen Hperm _ _ _ Hsims)
    as [Hret _].
  exists (reversed (last_three (argsort sims))).
  split; [exact Hret|]. split; [reflexivity|]. split.
  - apply (last_three_sorted _ _ (Hasc sims)).
  - intros Hstable.
    apply (StronglySorted_weaken
             (fun i j => (score sims j == score sims i)%Q -> j < i)).
    + intros i j Himp Heq. apply Himp. now symmetry.
    + apply (last_three_sorted _ _ (Hstable sims)).
Qed.

Lemma rank_descending_ties_reversed_witness :
  exists top,
    search_relevant_text Sample.no_overlap insertion_argsort
      (u "業界の現状を説明してください。") [u "売上高"; u "市場規模"]
    = Return (texts_at [u "売上高"; u "市場規模"] top)
    /\ top = reversed (last_three (insertion_argsort [0; 0]%Q))
    /\ descending [0; 0]%Q top
    /\ (argsort_stable insertion_argsort -> ties_later_first [0; 0]%Q top).
Proof.
  apply (rank_descending_ties_reversed Sample.no_overlap insertion_argsort
           (u "業界の現状を説明してください。") [u "売上高"; u "市場規模"]
           [0; 0]%Q).
  - exact no_overlap_one_per_text.
  - exact insertion_argsort_permutes.
  - exact insertion_argsort_ascending.
  - discriminate.
  - reflexivity.
Defined.

(* ================================================================== *)
(** ** Results: the endpoint *)

Section EndpointResults.

Variable cosine_similarities : str -> list str -> result (list Q).
Variable argsort : list Q -> list nat.
Variable HTTPException_str : Z -> str -> str.
Variable world : World.

Let endpoint := summarize_preset_file cosine_similarities argsort
                  HTTPException_str world.

(** Whatever the [try] body raises leaves the endpoint as what the
    [except] clauses raise for it. *)
Lemma endpoint_reraises (industry : str) (e : exn) (t t' : list event) :
  try_body cosine_similarities argsort world industry t = (Raise e, t') ->
  endpoint (Some industry) t = except_clauses HTTPException_str e t'.
Proof.
  intros Hbody. unfold endpoint, summarize_preset_file, try_except.
  rewrite Hbody. reflexivity.
Qed.

(** An [HTTPException] raised in the [try] body is caught by
    [except Exception] and replaced by one with status 500. *)
Lemma except_clauses_http (status_code : Z) (detail : str) (t : list event) :
  except_clauses HTTPException_str (HTTPException status_code detail) t
  = (Raise (HTTPException 500 (HTTPException_str status_code detail)), t).
Proof. reflexivity. Qed.

Lemma try_body_file_missing (industry : str) :
  os_path_exists world (file_path_of industry) = false ->
  try_body cosine_similarities argsort world industry []
  = (Raise (HTTPException 404 detail_file_not_found),
     [OsPathExists (file_path_of industry)]).
Proof.
  intros Hmissing. unfold try_body, io_bind, call_os_path_exists.
  rewrite Hmissing. reflexivity.
Qed.

Lemma try_body_metric_missing (industry : str) (document : Document) :
  os_path_exists world (file_path_of industry) = true ->
  open_document world (file_path_of industry) = Return document ->
  summaries_collected cosine_similarities argsort world
    (nonblank_paragraphs document)
    [OsPathExists (file_path_of industry);
     OpenDocument (file_path_of industry)] ->
  extract_ev_ebitda_median document = Return None ->
  exists t,
    try_body cosine_similarities argsort world industry []
    = (Raise (HTTPException 404 detail_metric_not_found), t).
Proof.
  intros Hfound Hopen [summaries Hsummaries] Hnone.
  unfold try_body, io_bind, call_os_path_exists, call_Document.
  rewrite Hfound. cbn [negb io_return app]. rewrite Hopen.
  destruct (summarize_each _ _ _ _ _ _ _) as [r t].
  cbn [fst] in Hsummaries. subst r.
  unfold io_lift. rewrite Hnone. eexists. reflexivity.
Qed.

End EndpointResults.

(** C8. A request without the industry parameter is answered with the
    client-error status 400, and no call is made to the file system, the
    document loader or the language model: the trace stays empty. *)
Theorem missing_industry_is_client_error
    (cosine_similarities : str -> list str -> result (list Q))
    (argsort : list Q -> list nat) (HTTPException_str : Z -> str -> str)
    (world : World) :
  summarize_preset_file cosine_similarities argsort HTTPException_str world
    None []
  = (Raise (HTTPException 400 detail_missing_industry), [])
  /\ response_status
       (fst (summarize_preset_file cosine_similarities argsort
               HTTPException_str world None []))
     = 400%Z.
Proof. split; reflexivity. Qed.

(** C2, what the code does. When the file derived from the industry
    identifier does not exist, the [try] body raises the 404 exception,
    [except Exception] catches it, and the request is answered with
    status 500; the detail is [str] of the caught exception. Only the
    existence test was called. *)
Theorem missing_file_answers_500
    (cosine_similarities : str -> list str -> result (list Q))
    (argsort : list Q -> list nat) (HTTPException_str : Z -> str -> str)
    (world : World) (industry : str) :
  os_path_exists world (file_path_of industry) = false ->
  summarize_preset_file cosine_similarities argsort HTTPException_str world
    (Some industry) []
  = (Raise (HTTPException 500 (HTTPException_str 404%Z detail_file_not_found)),
     [OsPathExists (file_path_of industry)])
  /\ response_status
       (fst (summarize_preset_file cosine_similarities argsort
               HTTPException_str world (Some industry) []))
     = 500%Z.
Proof.
  intros Hmissing.
  assert (Hrun : summarize_preset_file cosine_similarities argsort
                   HTTPException_str world (Some industry) []
                 = (Raise (HTTPException 500
                             (HTTPException_str 404%Z detail_file_not_found)),
                    [OsPathExists (file_path_of industry)])).
  { rewrite (endpoint_reraises _ _ _ _ _ _ _ _
               (try_body_file_missing _ _ _ _ Hmissing)).
    apply except_clauses_http. }
  rewrite Hrun. split; reflexivity.
Qed.

Lemma missing_file_answers_500_witness :
  response_status
    (fst (summarize_preset_file Sample.no_overlap insertion_argsort
            Sample.starlette_str Sample.empty_disk (Some (u "retail")) []))
  = 500%Z.
Proof.
  apply (missing_file_answers_500 Sample.no_overlap insertion_argsort
           Sample.starlette_str Sample.empty_disk (u "retail")).
  reflexivity.
Defined.

(** C1, what the code does. When the document loads, the five summaries
    are collected and the extractor returns [None], the [try] body raises
    the 404 exception, [except Exception] catches it, and the request is
    answered with status 500; the detail is [str] of the caught
    exception. *)
Theorem missing_metric_answers_500
    (cosine_similarities : str -> list str -> result (list Q))
    (argsort : list Q -> list nat) (HTTPException_str : Z -> str -> str)
    (world : World) (industry : str) (document : Document) :
  os_path_exists world (file_path_of industry) = true ->
  open_document world (file_path_of industry) = Return document ->
  summaries_collected cosine_similarities argsort world
    (nonblank_paragraphs document)
    [OsPathExists (file_path_of industry);
     OpenDocument (file_path_of industry)] ->
  extract_ev_ebitda_median document = Return None ->
  fst (summarize_preset_file cosine_similarities argsort HTTPException_str
         world (Some industry) [])
  = Raise (HTTPException 500 (HTTPException_str 404%Z detail_metric_not_found))
  /\ response_status
       (fst (summarize_preset_file cosine_similarities argsort
               HTTPException_str world (Some industry) []))
     = 500%Z.
Proof.
  intros Hfound Hopen Hsummaries Hnone.
  destruct (try_body_metric_missing _ _ _ _ _ Hfound Hopen Hsummaries Hnone)
    as [t Hbody].
  rewrite (endpoint_reraises _ _ _ _ _ _ _ _ Hbody).
  rewrite except_clauses_http. split; reflexivity.
Qed.

Lemma missing_metric_answers_500_witness :
  response_status
    (fst (summarize_preset_file Sample.no_overlap insertion_argsort
            Sample.starlette_str (Sample.serving Sample.no_median)
            (Some (u "retail")) []))
  = 500%Z.
Proof.
  apply (missing_metric_answers_500 Sample.no_overlap insertion_argsort
           Sample.starlette_str (Sample.serving Sample.no_median)
           (u "retail") Sample.no_median).
  - reflexivity.
  - reflexivity.
  - eexists. vm_compute. reflexivity.
  - vm_compute. reflexivity.
Defined.

(* ================================================================== *)
(** ** Runs of the model *)

(** The scenario of the specification that succeeds: five summaries,
    stripped, and the first median value. *)
Example summarize_succeeds :
  fst (summarize_preset_file Sample.no_overlap insertion_argsort
         Sample.starlette_str (Sample.serving Sample.two_medians)
         (Some (u "retail")) [])
  = Return [(u "current_situation", u "要約");
            (u "future_outlook", u "要約");
            (u "investment_advantages", u "要約");
            (u "investment_disadvantages", u "要約");
            (u "value_up_hypothesis", u "要約");
            (u "ev_ebitda_median", u "7倍")].
Proof. vm_compute. reflexivity. Qed.

(** One existence test, one load and five model calls, in this order. *)
Example summarize_calls :
  map (fun ev => match ev with
                 | OsPathExists _ => 0
                 | OpenDocument _ => 1
                 | ChatCompletionCreate _ => 2
                 end)
      (snd (summarize_preset_file Sample.no_overlap insertion_argsort
              Sample.starlette_str (Sample.serving Sample.two_medians)
              (Some (u "retail")) []))
  = [0; 1; 2; 2; 2; 2; 2].
Proof. vm_compute. reflexivity. Qed.

(** A failure of the language model is answered with status 500 and the
    prefixed message. *)
Example summarize_model_failure :
  fst (summarize_preset_file Sample.no_overlap insertion_argsort
         Sample.starlette_str
         {| os_path_exists := fun _ => true;
            open_document := fun _ => Return Sample.two_medians;
            chat_completion := fun n _ =>
              if (n =? 2)%nat then Raise (OpenAIError (u "rate limit"))
              else Return (u "要約") |}
         (Some (u "retail")) [])
  = Raise (HTTPException 500 (u "OpenAI APIエラー: rate limit")).
Proof. vm_compute. reflexivity. Qed.

(** The row of the specification: ["中央値", ..., "8.4倍"]. *)
Example extract_median_row :
  extract_ev_ebitda_median
    {| paragraphs := []; tables := [[[u "中央値"; u "12.1倍"; u "8.4倍"]]] |}
  = Return (Some (u "8.4倍")).
Proof. vm_compute. reflexivity. Qed.

(** A row without cells stops the extractor with an [IndexError]. *)
Example extract_row_without_cells :
  extract_ev_ebitda_median
    {| paragraphs := []; tables := [[[]; [u "中央値"; u "8.4倍"]]] |}
  = Raise (IndexError (u "list index out of range")).
Proof. vm_compute. reflexivity. Qed.

(** Full-width digits are digits for [\d]. *)
Example search_full_width : search pattern (u "１２倍") = Some (u "１２倍").
Proof. vm_compute. reflexivity. Qed.

(** A fraction keeps the pattern anchored: the whole number matches. *)
Example search_fraction :
  search pattern (u "約 12.3456倍です") = Some (u "12.3456倍").
Proof. vm_compute. reflexivity. Qed.

(** Equal similarities keep their index order in [insertion_argsort];
    the ranker takes the last three and reverses them. *)
Example insertion_argsort_ties :
  insertion_argsort [0.5; 0.1; 0.5; 0.3; 0.1]%Q = [1; 4; 3; 0; 2].
Proof. vm_compute. reflexivity. Qed.

Example rank_five_without_overlap :
  search_relevant_text Sample.no_overlap insertion_argsort (u "query")
    [u "p1"; u "p2"; u "p3"; u "p4"; u "p5"]
  = Return [u "p5"; u "p4"; u "p3"].
Proof. vm_compute. reflexivity. Qed.

(* ================================================================== *)
(** ** Further results: the pattern and the extractor *)

(** *** What a repetition takes *)

Lemma repeat_one_some (i : item) (s : str) :
  forall (lo : nat) (hi : option nat) (k : str -> option str) (r : str),
    repeat_one i lo hi s k = Some r ->
    exists taken rest,
      s = taken ++ rest
      /\ Forall (fun c => item_matches i c = true) taken
      /\ lo <= length taken
      /\ (forall n, hi = Some n -> length taken <= n)
      /\ k rest = Some r.
Proof.
  induction s as [|c s IH]; intros lo hi k r; cbn [repeat_one].
  - destruct (Nat.eqb_spec lo 0) as [->|]; [|discriminate].
    intros Hk. exists [], []. repeat split; auto. intros n _. cbn. lia.
  - assert (Hstop : (if (lo =? 0)%nat then k (c :: s) else None) = Some r ->
              exists taken rest,
                c :: s = taken ++ rest
                /\ Forall (fun c => item_matches i c = true) taken
                /\ lo <= length taken
                /\ (forall n, hi = Some n -> length taken <= n)
                /\ k rest = Some r).
    { destruct (Nat.eqb_spec lo 0) as [->|]; [|discriminate].
      intros Hk. exists [], (c :: s). repeat split; auto. intros n _. cbn. lia. }
    destruct (item_matches i c && may_take hi) eqn:Htake; [|exact Hstop].
    apply andb_true_iff in Htake. destruct Htake as [Hc Hhi].
    destruct (repeat_one i (pred lo) (one_less hi) s k) as [r'|] eqn:Hinner;
      [|exact Hstop].
    intros [= <-].
    destruct (IH _ _ _ _ Hinner) as [taken [rest [-> [Hall [Hlo [Hbound Hk]]]]]].
    exists (c :: taken), rest. repeat split; auto.
    + cbn [length]. lia.
    + intros n ->. cbn [length]. destruct n as [|n]; [discriminate|].
      specialize (Hbound n eq_refl). lia.
Qed.

(** A repetition followed by a character it cannot take, or by nothing,
    takes the whole run when the rest of the pattern then succeeds. *)
Lemma repeat_one_takes_run (i : item) (taken rest : str)
    (k : str -> option str) (r : str) :
  forall (lo : nat) (hi : option nat),
    Forall (fun c => item_matches i c = true) taken ->
    lo <= length taken ->
    (forall n, hi = Some n -> length taken <= n) ->
    k rest = Some r ->
    match rest with
    | c :: _ => item_matches i c = false
    | [] => True
    end ->
    repeat_one i lo hi (taken ++ rest) k = Some r.
Proof.
  induction taken as [|d taken IH]; intros lo hi Hall Hlo Hbound Hk Hnext.
  - cbn [app]. cbn [length] in Hlo. replace lo with 0 by lia.
    destruct rest as [|c rest]; cbn [repeat_one Nat.eqb]; [exact Hk|].
    rewrite Hnext. cbn [andb]. exact Hk.
  - inversion Hall as [|? ? Hd Hall']; subst.
    cbn [app repeat_one]. rewrite Hd.
    assert (Hmay : may_take hi = true).
    { destruct hi as [[|n]|]; try reflexivity.
      specialize (Hbound 0 eq_refl). cbn [length] in Hbound. lia. }
    rewrite Hmay. cbn [andb].
    rewrite (IH (pred lo) (one_less hi)); auto.
    + cbn [length] in Hlo. lia.
    + intros n Hn. destruct hi as [m|]; [|discriminate].
      cbn [one_less] in Hn. injection Hn as <-.
      specialize (Hbound m eq_refl). cbn [length] in Hbound. lia.
Qed.

(** *** What the pattern matches *)

Lemma match_here_pattern_unfold (s : str) :
  match_here pattern s (fun rest => Some rest)
  = repeat_one CATEGORY_DIGIT 1 (Some 3) s after_integer.
Proof. reflexivity. Qed.

Lemma suffix_then_rest (s rest : str) :
  match_here (IN (LITERAL 0x500D)) s (fun rest => Some rest) = Some rest ->
  s = unit_suffix :: rest.
Proof.
  destruct s as [|c s]; cbn [match_here item_matches]; [discriminate|].
  destruct (N.eqb_spec 0x500D c) as [<-|]; [|discriminate].
  now intros [= ->].
Qed.

Lemma after_integer_some (s rest : str) :
  after_integer s = Some rest ->
  exists frac,
    s = frac ++ unit_suffix :: rest
    /\ (frac = [] \/
        exists digits, frac = 0x2E%N :: digits /\ digits <> []
                       /\ Forall (fun c => isdecimal c = true) digits).
Proof.
  unfold after_integer. cbn [match_here].
  destruct s as [|c s].
  - discriminate.
  - cbn [item_matches].
    destruct (N.eqb_spec 0x2E c) as [<-|Hc].
    + destruct (repeat_one CATEGORY_DIGIT 1 None s _) as [r|] eqn:Hfrac.
      * intros [= <-].
        apply repeat_one_some in Hfrac.
        destruct Hfrac as [digits [s2 [-> [Hall [Hlo [_ Hk]]]]]].
        apply suffix_then_rest in Hk. subst s2.
        exists (0x2E%N :: digits). split; [reflexivity|]. right.
        exists digits. repeat split; auto.
        intros ->. cbn [length] in Hlo. lia.
      * destruct (N.eqb_spec 0x500D 0x2E) as [Heq|]; discriminate.
    + intros Hk. exists []. split; [|now left].
      now apply (suffix_then_rest (c :: s)).
Qed.

(** A match at the start of [s] is a multiple, and [s] is the match
    followed by what is left. *)
Lemma match_here_is_multiple (s rest : str) :
  match_here pattern s (fun rest => Some rest) = Some rest ->
  exists m, s = m ++ rest /\ is_multiple m.
Proof.
  rewrite match_here_pattern_unfold. intros Hm.
  apply repeat_one_some in Hm.
  destruct Hm as [ints [s1 [-> [Hall [Hlo [Hhi Hk]]]]]].
  apply after_integer_some in Hk. destruct Hk as [frac [-> Hfrac]].
  exists (ints ++ frac ++ [unit_suffix]). split.
  - rewrite <- !app_assoc. reflexivity.
  - exists ints, frac. repeat split; auto.
Qed.

Lemma firstn_matched (m rest : str) :
  firstn (length (m ++ rest) - length rest) (m ++ rest) = m.
Proof.
  rewrite length_app. replace (length m + length rest - length rest)
    with (length m + 0) by lia.
  rewrite firstn_app_2. cbn [firstn]. apply app_nil_r.
Qed.

Lemma search_unfold (r : regex) (s : str) :
  search r s =
  match match_here r s (fun rest => Some rest) with
  | Some rest => Some (firstn (length s - length rest) s)
  | None => match s with [] => None | _ :: s' => search r s' end
  end.
Proof. destruct s; reflexivity. Qed.

(** What [search] returns is a multiple that occurs in the text. *)
Lemma search_is_multiple (s m : str) :
  search pattern s = Some m -> is_multiple m /\ occurs_in m s.
Proof.
  induction s as [|c s IH]; rewrite search_unfold.
  - discriminate.
  - destruct (match_here pattern (c :: s) _) as [rest|] eqn:Hhere.
    + apply match_here_is_multiple in Hhere.
      destruct Hhere as [m' [Heq Hm]]. rewrite Heq, firstn_matched.
      intros [= <-].
      split; [exact Hm|]. exists [], rest. reflexivity.
    + intros Hs. destruct (IH Hs) as [Hm [before [after ->]]].
      split; [exact Hm|]. exists (c :: before), after. reflexivity.
Qed.

(** Every multiple that follows text without digits is found whole. *)
Lemma match_here_multiple (m after : str) :
  is_multiple m ->
  match_here pattern (m ++ after) (fun rest => Some rest) = Some after.
Proof.
  intros [ints [frac [-> [[Hlo Hhi] [Hints Hfrac]]]]].
  rewrite match_here_pattern_unfold, <- !app_assoc.
  assert (Hsuffix : forall k rest,
            match_here (IN (LITERAL 0x500D)) (unit_suffix :: rest) k = k rest).
  { intros k rest. reflexivity. }
  destruct Hfrac as [->|[digits [-> [Hne Hdigits]]]].
  - cbn [app].
    apply (repeat_one_takes_run CATEGORY_DIGIT ints (unit_suffix :: after)
             after_integer after 1 (Some 3) Hints Hlo).
    + intros n [= <-]. exact Hhi.
    + vm_compute. reflexivity.
    + vm_compute. reflexivity.
  - cbn [app].
    apply (repeat_one_takes_run CATEGORY_DIGIT ints
             (0x2E%N :: digits ++ unit_suffix :: after)
             after_integer after 1 (Some 3) Hints Hlo).
    + intros n [= <-]. exact Hhi.
    + unfold after_integer. cbn [match_here item_matches].
      rewrite N.eqb_refl.
      rewrite (repeat_one_takes_run CATEGORY_DIGIT digits
                 (unit_suffix :: after) _ after 1 None Hdigits).
      * reflexivity.
      * destruct digits; [congruence|cbn [length]; lia].
      * discriminate.
      * vm_compute. reflexivity.
      * vm_compute. reflexivity.
    + vm_compute. reflexivity.
Qed.

Lemma search_finds_multiple (before m after : str) :
  Forall (fun c => isdecimal c = false) before ->
  is_multiple m ->
  search pattern (before ++ m ++ after) = Some m.
Proof.
  intros Hbefore Hm. rewrite search_skip_not_digits by exact Hbefore.
  rewrite search_unfold, (match_here_multiple m after Hm), firstn_matched.
  reflexivity.
Qed.

(** What [no_match_starts_in] decides: no multiple begins at a character
    of [before]. *)
Lemma no_match_starts_in_spec (before rest : str) :
  no_match_starts_in before rest = true <->
  (forall a b m left,
     before = a ++ b -> b <> [] -> b ++ rest = m ++ left -> ~ is_multiple m).
Proof.
  split.
  - induction before as [|c before IH]; intros Hno a b m left Hsplit Hb Heq Hm.
    + symmetry in Hsplit. apply app_eq_nil in Hsplit. now destruct Hsplit.
    + cbn [no_match_starts_in] in Hno.
      destruct (match_here pattern ((c :: before) ++ rest)
                  (fun left => Some left)) eqn:Hhere; [discriminate|].
      destruct a as [|x a].
      * cbn [app] in Hsplit. subst b. rewrite Heq in Hhere.
        rewrite (match_here_multiple m left Hm) in Hhere. discriminate.
      * injection Hsplit as _ Hsplit.
        exact (IH Hno a b m left Hsplit Hb Heq Hm).
  - induction before as [|c before IH]; intros Hnone; [reflexivity|].
    cbn [no_match_starts_in].
    destruct (match_here pattern ((c :: before) ++ rest)
                (fun left => Some left)) as [left|] eqn:Hhere.
    + exfalso. apply match_here_is_multiple in Hhere.
      destruct Hhere as [m [Heq Hm]].
      apply (Hnone [] (c :: before) m left eq_refl); auto. discriminate.
    + apply IH. intros a b m left Hsplit Hb Heq Hm.
      apply (Hnone (c :: a) b m left); auto. cbn [app]. now rewrite Hsplit.
Qed.

(** *** Reading the result of the scan backwards *)

Lemma check_row_some (row : Row) (m : str) :
  check_row row = Return (Some m) ->
  is_median_row row = true /\ search pattern (value_text row) = Some m.
Proof.
  destruct row as [|c row]; [discriminate|].
  rewrite check_row_yields by discriminate.
  unfold yields. destruct (is_median_row (c :: row)); [|discriminate].
  intros [= H]. auto.
Qed.

Lemma scan_rows_some_inv (rows : list Row) (m : str) :
  scan_rows rows = Return (Some m) ->
  exists row, In row rows /\ check_row row = Return (Some m).
Proof.
  induction rows as [|row rows IH]; cbn [scan_rows]; [discriminate|].
  destruct (check_row row) as [[m'|]|e] eqn:Hrow; cbn [bind].
  - intros [= <-]. exists row. split; [now left|exact Hrow].
  - intros Hrest. destruct (IH Hrest) as [row' [Hin Hrow']].
    exists row'. split; [now right|exact Hrow'].
  - discriminate.
Qed.

Lemma scan_rows_none_iff (rows : list Row) :
  Forall (fun row => row <> []) rows ->
  scan_rows rows = Return None <-> Forall (fun row => yields row = None) rows.
Proof.
  induction 1 as [|row rows Hne _ IH]; cbn [scan_rows].
  - split; [constructor|reflexivity].
  - rewrite (check_row_yields _ Hne). cbn [bind].
    destruct (yields row) as [m|] eqn:Hy.
    + split; [discriminate|]. intros Hall. inversion Hall; congruence.
    + rewrite IH. split; [now constructor|]. intros Hall. now inversion Hall.
Qed.

Lemma multiple_has_suffix (m : str) : is_multiple m -> In unit_suffix m.
Proof.
  intros [ints [frac [-> _]]]. apply in_or_app. right.
  apply in_or_app. right. now left.
Qed.

Lemma multiple_has_digit (m : str) :
  is_multiple m -> exists c, In c m /\ isdecimal c = true.
Proof.
  intros [ints [frac [-> [[Hlo _] [Hints _]]]]].
  destruct ints as [|c ints]; [cbn [length] in Hlo; lia|].
  exists c. split; [now left|]. now inversion Hints.
Qed.

(** *** Stripping twice *)

Lemma lstrip_head (s : str) :
  match lstrip s with
  | c :: _ => isspace c = false
  | [] => True
  end.
Proof.
  induction s as [|c s IH]; cbn [lstrip]; [exact I|].
  destruct (isspace c) eqn:Hc; [exact IH|exact Hc].
Qed.

Lemma lstrip_fixed (s : str) :
  match s with
  | c :: _ => isspace c = false
  | [] => True
  end ->
  lstrip s = s.
Proof.
  destruct s as [|c s]; [reflexivity|]. cbn [lstrip]. now intros ->.
Qed.

Lemma lstrip_idempotent (s : str) : lstrip (lstrip s) = lstrip s.
Proof. apply lstrip_fixed, lstrip_head. Qed.

Lemma lstrip_keeps_last (s : str) (c : char) :
  isspace c = false -> exists s', lstrip (s ++ [c]) = s' ++ [c].
Proof.
  intros Hc. induction s as [|d s IH]; cbn [app lstrip].
  - rewrite Hc. exists []. reflexivity.
  - destruct (isspace d); [exact IH|]. exists (d :: s). reflexivity.
Qed.

Lemma rstrip_idempotent (s : str) : rstrip (rstrip s) = rstrip s.
Proof.
  unfold rstrip. rewrite rev_involutive, lstrip_idempotent. reflexivity.
Qed.

(** Stripping on the right leaves a stripped left end as it is. *)
Lemma lstrip_rstrip (s : str) :
  lstrip s = s -> lstrip (rstrip s) = rstrip s.
Proof.
  intros Hs. apply lstrip_fixed.
  destruct s as [|c s]; [exact I|].
  assert (Hc : isspace c = false).
  { pose proof (lstrip_head (c :: s)) as H. rewrite Hs in H. exact H. }
  unfold rstrip. cbn [rev].
  destruct (lstrip_keeps_last (rev s) c Hc) as [s' ->].
  rewrite rev_app_distr. cbn [rev app]. exact Hc.
Qed.

Lemma strip_idempotent (s : str) : strip (strip s) = strip s.
Proof.
  unfold strip.
  rewrite (lstrip_rstrip (lstrip s) (lstrip_idempotent s)).
  apply rstrip_idempotent.
Qed.

Lemma map_strip_idempotent (row : Row) :
  map strip (map strip row) = map strip row.
Proof.
  rewrite map_map. apply map_ext. intros c. apply strip_idempotent.
Qed.

Lemma check_row_stripped (row : Row) :
  check_row (map strip row) = check_row row.
Proof.
  unfold check_row. rewrite map_strip_idempotent. reflexivity.
Qed.

Lemma scan_rows_stripped (rows : list Row) :
  scan_rows (map (map strip) rows) = scan_rows rows.
Proof.
  induction rows as [|row rows IH]; [reflexivity|].
  cbn [map scan_rows]. rewrite check_row_stripped, IH. reflexivity.
Qed.

Lemma scan_tables_stripped (ts : list Table) :
  scan_tables (map (map (map strip)) ts) = scan_tables ts.
Proof.
  induction ts as [|t ts IH]; [reflexivity|].
  cbn [map scan_tables]. rewrite scan_rows_stripped, IH. reflexivity.
Qed.

(** *** Properties of the extractor *)

(** X1. Whatever the extractor returns is a multiple in the sense of the
    pattern (one to three digits, an optional fraction, the suffix) and
    occurs in the stripped last cell of a median row of the document. *)
Theorem extract_returns_multiple (document : Document) (m : str) :
  extract_ev_ebitda_median document = Return (Some m) ->
  is_multiple m /\
  exists row,
    In row (rows_in_order document)
    /\ is_median_row row = true
    /\ occurs_in m (value_text row).
Proof.
  rewrite extract_rows_in_order. intros Hscan.
  apply scan_rows_some_inv in Hscan. destruct Hscan as [row [Hin Hrow]].
  apply check_row_some in Hrow. destruct Hrow as [Hlab Hsearch].
  apply search_is_multiple in Hsearch. destruct Hsearch as [Hm Hocc].
  split; [exact Hm|]. exists row. auto.
Qed.

Lemma extract_returns_multiple_witness :
  is_multiple (u "7倍") /\
  exists row,
    In row (rows_in_order Sample.two_medians)
    /\ is_median_row row = true
    /\ occurs_in (u "7倍") (value_text row).
Proof.
  apply (extract_returns_multiple Sample.two_medians (u "7倍")).
  vm_compute. reflexivity.
Defined.

(** X2. A value written without the suffix is never extracted: when every
    row has a cell and no median row has the suffix in its last cell, the
    extractor returns [None]. *)
Theorem extract_needs_suffix (document : Document) :
  Forall (fun row => row <> []) (rows_in_order document) ->
  (forall row, In row (rows_in_order document) ->
               is_median_row row = true ->
               ~ In unit_suffix (value_text row)) ->
  extract_ev_ebitda_median document = Return None.
Proof.
  intros Hne Hnosuffix. rewrite extract_rows_in_order.
  apply scan_rows_none_iff; [exact Hne|].
  apply Forall_forall. intros row Hin. unfold yields.
  destruct (is_median_row row) eqn:Hlab; [|reflexivity].
  destruct (search pattern (value_text row)) as [m|] eqn:Hs; [|reflexivity].
  exfalso. apply (Hnosuffix row Hin Hlab).
  apply search_is_multiple in Hs. destruct Hs as [Hm [before [after ->]]].
  apply in_or_app. right. apply in_or_app. left.
  now apply multiple_has_suffix.
Qed.

Lemma extract_needs_suffix_witness :
  extract_ev_ebitda_median Sample.other_unit = Return None.
Proof.
  apply (extract_needs_suffix Sample.other_unit).
  - repeat constructor; discriminate.
  - intros row [<-|[<-|[]]] Hlab; vm_compute in Hlab |- *.
    + discriminate.
    + intros Hin. repeat (destruct Hin as [Hin|Hin]; [discriminate Hin|]).
      exact Hin.
Defined.

(** X3. On a document whose rows all have a cell, the extractor returns
    [None] exactly when no row is a median row whose last cell
    matches. *)
Theorem extract_none_iff (document : Document) :
  Forall (fun row => row <> []) (rows_in_order document) ->
  extract_ev_ebitda_median document = Return None
  <-> Forall (fun row => yields row = None) (rows_in_order document).
Proof.
  intros Hne. rewrite extract_rows_in_order. now apply scan_rows_none_iff.
Qed.

Lemma extract_none_iff_witness :
  extract_ev_ebitda_median Sample.no_median = Return None
  <-> Forall (fun row => yields row = None) (rows_in_order Sample.no_median).
Proof.
  apply (extract_none_iff Sample.no_median).
  repeat constructor; discriminate.
Defined.

(** X4. A row without cells that is reached by the scan (no earlier row
    yields a match) makes the extractor raise [IndexError], whatever
    comes after it. *)
Theorem extract_row_without_cells_raises
    (document : Document) (pre post : list Row) :
  rows_in_order document = pre ++ [] :: post ->
  Forall (fun row => row <> []) pre ->
  Forall (fun row => yields row = None) pre ->
  extract_ev_ebitda_median document
  = Raise (IndexError (u "list index out of range")).
Proof.
  intros Hrows Hne Hpre. rewrite extract_rows_in_order, Hrows.
  rewrite (scan_rows_skip _ _ Hne Hpre). reflexivity.
Qed.

Lemma extract_row_without_cells_raises_witness :
  extract_ev_ebitda_median Sample.row_without_cells
  = Raise (IndexError (u "list index out of range")).
Proof.
  apply (extract_row_without_cells_raises Sample.row_without_cells
           [[u "平均値"; u "6.1倍"]] [[u "中央値"; u "8.4倍"]]).
  - reflexivity.
  - repeat constructor; discriminate.
  - repeat constructor.
Defined.

(** X5. The pattern finds every well-formed multiple: on a median row
    whose last cell is text without digits, then a multiple, then
    anything, the loop body returns that multiple whole (the fraction
    may have any number of digits). *)
Theorem check_row_finds_multiple (row : Row) (before m after : str) :
  is_median_row row = true ->
  value_text row = before ++ m ++ after ->
  Forall (fun c => isdecimal c = false) before ->
  is_multiple m ->
  check_row row = Return (Some m).
Proof.
  intros Hlab Htext Hbefore Hm.
  rewrite (check_row_yields _ (median_row_has_cells _ Hlab)).
  unfold yields. rewrite Hlab, Htext.
  now rewrite search_finds_multiple.
Qed.

Lemma check_row_finds_multiple_witness :
  check_row [u "中央値（n=12）"; u " 約12.3456倍程度 "]
  = Return (Some (u "12.3456倍")).
Proof.
  apply (check_row_finds_multiple
           [u "中央値（n=12）"; u " 約12.3456倍程度 "]
           (u "約") (u "12.3456倍") (u "程度")).
  - vm_compute. reflexivity.
  - vm_compute. reflexivity.
  - repeat constructor.
  - exists (u "12"), (u ".3456"). split; [reflexivity|]. split.
    + vm_compute. split; repeat constructor.
    + split; [repeat constructor|].
      right. exists (u "3456"). split; [reflexivity|].
      split; [discriminate|repeat constructor].
Defined.

(** X6. Whitespace around cell texts plays no part: two documents whose
    cells agree after stripping give the same result. *)
Theorem extract_ignores_cell_padding (document1 document2 : Document) :
  map (map (map strip)) (tables document1)
  = map (map (map strip)) (tables document2) ->
  extract_ev_ebitda_median document1 = extract_ev_ebitda_median document2.
Proof.
  intros Hsame. unfold extract_ev_ebitda_median.
  rewrite <- (scan_tables_stripped (tables document1)).
  rewrite <- (scan_tables_stripped (tables document2)).
  now rewrite Hsame.
Qed.

Lemma extract_ignores_cell_padding_witness :
  extract_ev_ebitda_median Sample.two_medians
  = extract_ev_ebitda_median
      {| paragraphs := [];
         tables := [ [ [u " 指標"; u "PER "; u "EV/EBITDA"];
                       [u "  中央値 "; u "15.2倍"; u "7倍"] ];
                     [ [u "中央値"; u "9倍  "] ] ] |}.
Proof.
  apply (extract_ignores_cell_padding Sample.two_medians).
  vm_compute. reflexivity.
Defined.

(* ================================================================== *)
(** ** Further results: the ranker *)

Lemma grades_length (n : nat) (cycle : list Q) :
  length (Sample.grades n cycle) = n.
Proof.
  revert cycle. induction n as [|n IH]; intros cycle; [reflexivity|].
  destruct cycle; cbn [Sample.grades length]; now rewrite IH.
Qed.

Lemma graded_one_per_text : one_per_text Sample.graded.
Proof. intros query texts sims [= <-]. apply grades_length. Qed.


Lemma StronglySorted_app_inv {A : Type} (R : A -> A -> Prop) (l1 l2 : list A) :
  StronglySorted R (l1 ++ l2) ->
  forall x y, In x l1 -> In y l2 -> R x y.
Proof.
  induction l1 as [|a l1 IH]; cbn [app]; intros Hs x y Hx Hy; [destruct Hx|].
  inversion Hs as [|? ? Hs' Ha]; subst.
  destruct Hx as [<-|Hx]; [|now apply IH].
  rewrite Forall_forall in Ha. apply Ha. apply in_or_app. now right.
Qed.

Lemma last_three_NoDup {A : Type} (l : list A) :
  NoDup l -> NoDup (reversed (last_three l)).
Proof.
  intros Hnd. unfold reversed, last_three. apply NoDup_rev.
  rewrite <- (firstn_skipn (length l - 3) l) in Hnd.
  now apply NoDup_app_remove_l in Hnd.
Qed.

Lemma last_three_count {A : Type} (l : list A) :
  length (reversed (last_three l)) = Nat.min 3 (length l).
Proof.
  unfold reversed, last_three. rewrite length_rev, length_skipn. lia.
Qed.

Lemma argsort_NoDup (argsort : list Q -> list nat) (a : list Q) :
  argsort_permutes argsort -> NoDup (argsort a).
Proof.
  intros Hperm. apply (Permutation_NoDup (Permutation_sym (Hperm a))).
  apply seq_NoDup.
Qed.

(** An index that is not among the last three is among the others. *)
Lemma not_selected_is_earlier {A : Type} (l : list A) (x : A) :
  In x l -> ~ In x (reversed (last_three l)) -> In x (firstn (length l - 3) l).
Proof.
  intros Hin Hnot. rewrite <- (firstn_skipn (length l - 3) l) in Hin.
  apply in_app_or in Hin. destruct Hin as [Hin|Hin]; [exact Hin|].
  exfalso. apply Hnot. unfold reversed, last_three. now apply -> in_rev.
Qed.

(** X7. When the vectoriser succeeds, the ranker returns exactly
    min(3, n) paragraphs out of n, taken at pairwise distinct
    positions. *)
Theorem rank_count_and_distinct
    (cosine_similarities : str -> list str -> result (list Q))
    (argsort : list Q -> list nat) (query : str) (texts : list str)
    (sims : list Q) :
  one_per_text cosine_similarities ->
  argsort_permutes argsort ->
  cosine_similarities query texts = Return sims ->
  exists top,
    search_relevant_text cosine_similarities argsort query texts
    = Return (texts_at texts top)
    /\ length (texts_at texts top) = Nat.min 3 (length texts)
    /\ NoDup top
    /\ Forall (fun i => i < length texts) top.
Proof.
  intros Hlen Hperm Hsims.
  destruct (search_relevant_text_returns _ _ Hlen Hperm _ _ _ Hsims)
    as [Hret Hrange].
  exists (reversed (last_three (argsort sims))).
  split; [exact Hret|]. split; [|split; [|exact Hrange]].
  - unfold texts_at. rewrite length_map, last_three_count.
    rewrite (Permutation_length (Hperm sims)), length_seq.
    now rewrite (Hlen _ _ _ Hsims).
  - apply last_three_NoDup. now apply argsort_NoDup.
Qed.

Lemma rank_count_and_distinct_witness :
  exists top,
    search_relevant_text Sample.no_overlap insertion_argsort (u "query")
      [u "p1"; u "p2"; u "p3"; u "p4"; u "p5"]
    = Return (texts_at [u "p1"; u "p2"; u "p3"; u "p4"; u "p5"] top)
    /\ length (texts_at [u "p1"; u "p2"; u "p3"; u "p4"; u "p5"] top)
       = Nat.min 3 5
    /\ NoDup top
    /\ Forall (fun i => i < 5) top.
Proof.
  apply (rank_count_and_distinct Sample.no_overlap insertion_argsort
           (u "query") [u "p1"; u "p2"; u "p3"; u "p4"; u "p5"]
           [0; 0; 0; 0; 0]%Q).
  - exact no_overlap_one_per_text.
  - exact insertion_argsort_permutes.
  - reflexivity.
Defined.

(** X8. The ranker selects the highest similarities: no paragraph left
    out has a higher similarity than a paragraph returned. *)
Theorem rank_selects_highest
    (cosine_similarities : str -> list str -> result (list Q))
    (argsort : list Q -> list nat) (query : str) (texts : list str)
    (sims : list Q) :
  one_per_text cosine_similarities ->
  argsort_permutes argsort ->
  argsort_ascending argsort ->
  cosine_similarities query texts = Return sims ->
  exists top,
    search_relevant_text cosine_similarities argsort query texts
    = Return (texts_at texts top)
    /\ forall i j,
         In i top -> j < length texts -> ~ In j top ->
         (score sims j <= score sims i)%Q.
Proof.
  intros Hlen Hperm Hasc Hsims.
  destruct (search_relevant_text_returns _ _ Hlen Hperm _ _ _ Hsims)
    as [Hret _].
  exists (reversed (last_three (argsort sims))).
  split; [exact Hret|]. intros i j Hi Hj Hnot.
  assert (Hjin : In j (argsort sims)).
  { apply (Permutation_in _ (Permutation_sym (Hperm sims))).
    apply in_seq. rewrite (Hlen _ _ _ Hsims). lia. }
  apply not_selected_is_earlier in Hnot; [|exact Hjin].
  unfold reversed, last_three in Hi. apply in_rev in Hi.
  pose proof (Hasc sims) as Hsorted.
  rewrite <- (firstn_skipn (length (argsort sims) - 3) (argsort sims))
    in Hsorted.
  exact (StronglySorted_app_inv _ _ _ Hsorted j i Hnot Hi).
Qed.

Lemma rank_selects_highest_witness :
  exists top,
    search_relevant_text Sample.graded insertion_argsort (u "query")
      [u "p1"; u "p2"; u "p3"; u "p4"; u "p5"]
    = Return (texts_at [u "p1"; u "p2"; u "p3"; u "p4"; u "p5"] top)
    /\ forall i j,
         In i top -> j < 5 -> ~ In j top ->
         (score [0.5; 0.1; 0.5; 0.3; 0.1] j
          <= score [0.5; 0.1; 0.5; 0.3; 0.1] i)%Q.
Proof.
  apply (rank_selects_highest Sample.graded insertion_argsort
           (u "query") [u "p1"; u "p2"; u "p3"; u "p4"; u "p5"]
           [0.5; 0.1; 0.5; 0.3; 0.1]%Q).
  - exact graded_one_per_text.
  - exact insertion_argsort_permutes.
  - exact insertion_argsort_ascending.
  - reflexivity.
Defined.

Lemma seq_increasing (start n : nat) : StronglySorted lt (seq start n).
Proof.
  revert start. induction n as [|n IH]; intros start; cbn [seq]; constructor.
  - apply IH.
  - apply Forall_forall. intros j Hj. apply in_seq in Hj. lia.
Qed.

(** Two increasing lists with the same elements are equal. *)
Lemma increasing_permutation_unique (l1 l2 : list nat) :
  StronglySorted lt l1 -> StronglySorted lt l2 -> Permutation l1 l2 -> l1 = l2.
Proof.
  intros Hs1. revert l2. induction Hs1 as [|x l1 Hs1 IH Hx]; intros l2 Hs2 Hp.
  - apply Permutation_nil in Hp. now subst.
  - destruct Hs2 as [|y l2 Hs2 Hy].
    + apply Permutation_sym, Permutation_nil in Hp. discriminate.
    + assert (x = y) as ->.
      { rewrite Forall_forall in Hx, Hy.
        assert (Hin1 : In x (y :: l2))
          by (apply (Permutation_in _ Hp); now left).
        assert (Hin2 : In y (x :: l1))
          by (apply (Permutation_in _ (Permutation_sym Hp)); now left).
        destruct Hin1 as [->|Hin1]; [reflexivity|].
        destruct Hin2 as [->|Hin2]; [reflexivity|].
        specialize (Hx _ Hin2). specialize (Hy _ Hin1). lia. }
      f_equal. apply IH; [exact Hs2|]. now apply Permutation_cons_inv in Hp.
Qed.

(** A stable [argsort] leaves an array of equal values in place. *)
Lemma stable_argsort_of_equal (argsort : list Q -> list nat) (a : list Q) :
  argsort_permutes argsort ->
  argsort_stable argsort ->
  (forall i j, i < length a -> j < length a -> (score a i == score a j)%Q) ->
  argsort a = seq 0 (length a).
Proof.
  intros Hperm Hstable Hequal.
  apply increasing_permutation_unique;
    [|apply seq_increasing|apply Hperm].
  pose proof (permutation_in_range _ _ (Hperm a)) as Hrange.
  rewrite Forall_forall in Hrange.
  assert (Hgen : forall l, (forall i, In i l -> i < length a) ->
            StronglySorted
              (fun i j => (score a i == score a j)%Q -> i < j) l ->
            StronglySorted lt l).
  { intros l Hl Hs. induction Hs as [|x l Hs IH Hx]; constructor.
    - apply IH. intros i Hi. apply Hl. now right.
    - rewrite Forall_forall in *. intros j Hj. apply Hx; [exact Hj|].
      apply Hequal; apply Hl; [now left|now right]. }
  apply Hgen; [exact Hrange|apply Hstable].
Qed.

Lemma texts_at_suffix (texts : list str) (k : nat) :
  texts_at texts (skipn k (seq 0 (length texts))) = skipn k texts.
Proof.
  unfold texts_at. rewrite <- skipn_map.
  f_equal. apply texts_at_all.
Qed.

(** X9. When all similarities are equal (no paragraph shares a term
    with the query) and [argsort] is stable, the ranker returns the last
    three paragraphs of the input, the last one first. *)
Theorem rank_without_overlap
    (cosine_similarities : str -> list str -> result (list Q))
    (argsort : list Q -> list nat) (query : str) (texts : list str)
    (sims : list Q) :
  one_per_text cosine_similarities ->
  argsort_permutes argsort ->
  argsort_stable argsort ->
  cosine_similarities query texts = Return sims ->
  (forall i j, i < length sims -> j < length sims ->
               (score sims i == score sims j)%Q) ->
  search_relevant_text cosine_similarities argsort query texts
  = Return (reversed (last_three texts)).
Proof.
  intros Hlen Hperm Hstable Hsims Hequal.
  destruct (search_relevant_text_returns _ _ Hlen Hperm _ _ _ Hsims)
    as [Hret _].
  rewrite Hret. f_equal.
  rewrite (stable_argsort_of_equal argsort sims Hperm Hstable Hequal).
  rewrite (Hlen _ _ _ Hsims).
  unfold reversed, last_three, texts_at. rewrite map_rev. f_equal.
  rewrite length_seq. apply texts_at_suffix.
Qed.

Lemma rank_without_overlap_witness :
  search_relevant_text Sample.no_overlap insertion_argsort
    (u "業界の現状を説明してください。")
    [u "売上高"; u "市場規模"; u "競合"; u "規制"]
  = Return [u "規制"; u "競合"; u "市場規模"].
Proof.
  apply (rank_without_overlap Sample.no_overlap insertion_argsort
           (u "業界の現状を説明してください。")
           [u "売上高"; u "市場規模"; u "競合"; u "規制"]
           [0; 0; 0; 0]%Q).
  - exact no_overlap_one_per_text.
  - exact insertion_argsort_permutes.
  - exact insertion_argsort_stable.
  - reflexivity.
  - intros [|[|[|[|i]]]] [|[|[|[|j]]]] Hi Hj; try reflexivity;
      cbn [length] in Hi, Hj; lia.
Defined.

(* ================================================================== *)
(** ** Further results: the endpoint *)

(** *** Dictionaries and the summaries loop *)

Lemma str_eqb_eq (a b : str) : PyStr.eqb a b = true <-> a = b.
Proof.
  revert b. induction a as [|x a IH]; intros [|y b]; cbn [PyStr.eqb];
    try (split; [discriminate|discriminate]); [split; reflexivity|].
  rewrite andb_true_iff, N.eqb_eq, IH. split.
  - intros [-> ->]. reflexivity.
  - intros [= -> ->]. auto.
Qed.

Lemma setitem_keys (d : dict) (key value : str) :
  In key (map fst d) -> map fst (setitem d key value) = map fst d.
Proof.
  induction d as [|[k v] d IH]; cbn [map fst setitem In]; [intros []|].
  intros Hin. destruct (PyStr.eqb k key) eqn:Hk; [reflexivity|].
  cbn [map fst]. f_equal. apply IH.
  destruct Hin as [->|Hin]; [|exact Hin].
  assert (PyStr.eqb key key = true) by now apply str_eqb_eq. congruence.
Qed.

Lemma setitem_values (P : str -> Prop) (d : dict) (key value : str) :
  Forall P (map snd d) -> P value -> Forall P (map snd (setitem d key value)).
Proof.
  intros Hd Hv. induction d as [|[k v] d IH]; cbn [map snd setitem].
  - now constructor.
  - cbn [map snd] in Hd. inversion Hd as [|? ? Hv0 Hd']; subst.
    destruct (PyStr.eqb k key); cbn [map snd]; constructor; auto.
Qed.

Lemma chat_calls_snoc_chat (t : list event) (content : str) :
  chat_calls (t ++ [ChatCompletionCreate content]) = S (chat_calls t).
Proof.
  unfold chat_calls. rewrite filter_app, length_app. cbn. lia.
Qed.

Section SummariesLoop.

Variable cosine_similarities : str -> list str -> result (list Q).
Variable argsort : list Q -> list nat.
Variable world : World.
Variable paragraph_texts : list str.

Let loop := summarize_each cosine_similarities argsort world.

(** One turn of the loop. *)
Lemma summarize_each_cons (key query : str) (items summaries : dict)
    (t : list event) :
  loop ((key, query) :: items) paragraph_texts summaries t =
  match search_relevant_text cosine_similarities argsort query
          paragraph_texts with
  | Raise e => (Raise e, t)
  | Return relevant_paragraphs =>
      let content := prompt_for query relevant_paragraphs in
      match chat_completion world (chat_calls t) content with
      | Raise e => (Raise e, t ++ [ChatCompletionCreate content])
      | Return answer =>
          loop items paragraph_texts (setitem summaries key (strip answer))
            (t ++ [ChatCompletionCreate content])
      end
  end.
Proof.
  unfold loop. cbn [summarize_each].
  unfold io_bind at 1, io_lift at 1.
  destruct (search_relevant_text _ _ _ _) as [ranked|e]; [|reflexivity].
  unfold io_bind at 1, call_ChatCompletion_create, prompt_for.
  destruct (chat_completion world _ _); reflexivity.
Qed.

(** The loop makes at most one model call per topic. *)
Lemma summarize_each_calls (items summaries : dict) (t : list event) :
  chat_calls (snd (loop items paragraph_texts summaries t))
  <= chat_calls t + length items.
Proof.
  revert summaries t. induction items as [|[key query] items IH];
    intros summaries t.
  - unfold loop. cbn [summarize_each io_return snd length]. lia.
  - rewrite summarize_each_cons.
    destruct (search_relevant_text _ _ _ _) as [ranked|e]; cbn [snd length];
      [|lia].
    cbv zeta.
    destruct (chat_completion world _ _) as [answer|e]; cbn [snd].
    + specialize (IH (setitem summaries key (strip answer))
                    (t ++ [ChatCompletionCreate (prompt_for query ranked)])).
      rewrite chat_calls_snoc_chat in IH. lia.
    + rewrite chat_calls_snoc_chat. lia.
Qed.

(** When the loop ends normally, it has made one model call per topic,
    the keys of the summaries are as before and every value written is
    stripped. *)
Lemma summarize_each_returns (items summaries summaries' : dict)
    (t t' : list event) :
  (forall key query, In (key, query) items -> In key (map fst summaries)) ->
  loop items paragraph_texts summaries t = (Return summaries', t') ->
  chat_calls t' = chat_calls t + length items
  /\ map fst summaries' = map fst summaries
  /\ (Forall (fun v => strip v = v) (map snd summaries) ->
      Forall (fun v => strip v = v) (map snd summaries')).
Proof.
  revert summaries t. induction items as [|[key query] items IH];
    intros summaries t Hkeys.
  - unfold loop. cbn [summarize_each io_return length].
    intros [= <- <-]. repeat split; auto.
  - rewrite summarize_each_cons.
    destruct (search_relevant_text _ _ _ _) as [ranked|e]; [|discriminate].
    cbv zeta.
    destruct (chat_completion world _ _) as [answer|e]; [|discriminate].
    intros Hloop. apply IH in Hloop.
    + destruct Hloop as [Hcalls [Hk Hv]].
      assert (Hin : In key (map fst summaries))
        by (apply (Hkeys key query); now left).
      rewrite chat_calls_snoc_chat in Hcalls.
      rewrite (setitem_keys _ _ _ Hin) in Hk.
      repeat split; [cbn [length]; lia|exact Hk|].
      intros Hs. apply Hv. apply setitem_values; [exact Hs|].
      apply strip_idempotent.
    + intros key' query' Hin'.
      rewrite setitem_keys; [|apply (Hkeys key query); now left].
      apply (Hkeys key' query'). now right.
Qed.

(** The loop stops at the first model call that fails: when the calls
    before number [i] answer and call [i] raises [e], the loop raises [e]
    after [i + 1] calls (the ranker succeeding on every topic). *)
Lemma summarize_each_fails_at (e : exn) (i : nat) (items summaries : dict)
    (t : list event) :
  (forall key query, In (key, query) items ->
     exists ranked,
       search_relevant_text cosine_similarities argsort query paragraph_texts
       = Return ranked) ->
  (forall n content, n < i ->
     exists answer, chat_completion world n content = Return answer) ->
  (forall content, chat_completion world i content = Raise e) ->
  chat_calls t <= i < chat_calls t + length items ->
  exists t',
    loop items paragraph_texts summaries t = (Raise e, t')
    /\ chat_calls t' = S i.
Proof.
  intros Hrank Hbefore Hfail.
  revert summaries t. induction items as [|[key query] items IH];
    intros summaries t Hi.
  - cbn [length] in Hi. lia.
  - rewrite summarize_each_cons.
    destruct (Hrank key query (or_introl eq_refl)) as [ranked ->]. cbv zeta.
    destruct (Nat.eq_dec (chat_calls t) i) as [Heq|Hne].
    + rewrite Heq, Hfail. eexists. split; [reflexivity|].
      rewrite chat_calls_snoc_chat. lia.
    + destruct (Hbefore (chat_calls t) (prompt_for query ranked)) as [answer ->];
        [lia|].
      apply IH.
      * intros key' query' Hin. apply (Hrank key' query'). now right.
      * rewrite chat_calls_snoc_chat. cbn [length] in Hi. lia.
Qed.

End SummariesLoop.

(** *** The endpoint, step by step *)

Section EndpointRuns.

Variable cosine_similarities : str -> list str -> result (list Q).
Variable argsort : list Q -> list nat.
Variable HTTPException_str : Z -> str -> str.
Variable world : World.

Let endpoint := summarize_preset_file cosine_similarities argsort
                  HTTPException_str world.
Let body := try_body cosine_similarities argsort world.
Let loop := summarize_each cosine_similarities argsort world.

(** The [try] body as a cascade of its steps. *)
Lemma try_body_steps (industry : str) :
  body industry [] =
  if os_path_exists world (file_path_of industry) then
    match open_document world (file_path_of industry) with
    | Raise e => (Raise e, loaded industry)
    | Return document =>
        match loop queries (nonblank_paragraphs document) initial_summaries
                (loaded industry) with
        | (Raise e, t) => (Raise e, t)
        | (Return summaries, t) =>
            match extract_ev_ebitda_median document with
            | Raise e => (Raise e, t)
            | Return None =>
                (Raise (HTTPException 404 detail_metric_not_found), t)
            | Return (Some median) => (response_record summaries median, t)
            end
        end
    end
  else (Raise (HTTPException 404 detail_file_not_found),
        [OsPathExists (file_path_of industry)]).
Proof.
  unfold body, loop, try_body, io_bind, call_os_path_exists, call_Document,
    loaded.
  destruct (os_path_exists world (file_path_of industry)); [|reflexivity].
  cbn [negb io_return app].
  destruct (open_document world (file_path_of industry)) as [document|e];
    [|reflexivity].
  destruct (summarize_each _ _ _ _ _ _ _) as [[summaries|e] t]; [|reflexivity].
  unfold io_lift.
  destruct (extract_ev_ebitda_median document) as [[median|]|e];
    try reflexivity.
  unfold response_record, io_return.
  destruct (getitem_dict summaries (u "current_situation")); [|reflexivity].
  destruct (getitem_dict summaries (u "future_outlook")); [|reflexivity].
  destruct (getitem_dict summaries (u "investment_advantages")); [|reflexivity].
  destruct (getitem_dict summaries (u "investment_disadvantages"));
    [|reflexivity].
  destruct (getitem_dict summaries (u "value_up_hypothesis")); reflexivity.
Qed.

Lemma endpoint_steps (industry : str) :
  endpoint (Some industry) [] =
  match body industry [] with
  | (Return record, t) => (Return record, t)
  | (Raise e, t) => except_clauses HTTPException_str e t
  end.
Proof. reflexivity. Qed.

(** The [except] clauses raise an [HTTPException] with status 404 or 500
    and call nothing. *)
Lemma except_clauses_raise (e : exn) (t : list event) :
  exists status_code detail,
    except_clauses HTTPException_str e t
    = (Raise (HTTPException status_code detail), t)
    /\ (status_code = 404 \/ status_code = 500)%Z.
Proof.
  destruct e;
    (do 2 eexists; split; [reflexivity|]; (now left) || (now right)).
Qed.

(** With the keys of the initial summaries, the record is complete. *)
Lemma response_record_complete (summaries : dict) (median : str) :
  map fst summaries = map fst initial_summaries ->
  exists s1 s2 s3 s4 s5,
    summaries = [(u "current_situation", s1);
                 (u "future_outlook", s2);
                 (u "investment_advantages", s3);
                 (u "investment_disadvantages", s4);
                 (u "value_up_hypothesis", s5)]
    /\ response_record summaries median
       = Return [(u "current_situation", s1);
                 (u "future_outlook", s2);
                 (u "investment_advantages", s3);
                 (u "investment_disadvantages", s4);
                 (u "value_up_hypothesis", s5);
                 (u "ev_ebitda_median", median)].
Proof.
  intros Hkeys.
  destruct summaries as [|[k1 s1] [|[k2 s2] [|[k3 s3] [|[k4 s4]
    [|[k5 s5] [|]]]]]]; try discriminate Hkeys.
  cbn [map fst] in Hkeys. injection Hkeys as -> -> -> -> ->.
  exists s1, s2, s3, s4, s5. split; reflexivity.
Qed.

Lemma queries_keys_initialised (key query : str) :
  In (key, query) queries -> In key (map fst initial_summaries).
Proof.
  intros Hin. apply (in_map fst) in Hin. exact Hin.
Qed.

(** A complete run of the [try] body. *)
Lemma try_body_returns_record (industry : str) (document : Document)
    (median : str) :
  os_path_exists world (file_path_of industry) = true ->
  open_document world (file_path_of industry) = Return document ->
  summaries_collected cosine_similarities argsort world
    (nonblank_paragraphs document) (loaded industry) ->
  extract_ev_ebitda_median document = Return (Some median) ->
  exists s1 s2 s3 s4 s5 t,
    body industry []
    = (Return [(u "current_situation", s1);
               (u "future_outlook", s2);
               (u "investment_advantages", s3);
               (u "investment_disadvantages", s4);
               (u "value_up_hypothesis", s5);
               (u "ev_ebitda_median", median)], t)
    /\ Forall (fun v => strip v = v) [s1; s2; s3; s4; s5]
    /\ chat_calls t = 5.
Proof.
  intros Hfound Hopen [summaries Hsummaries] Hmedian.
  rewrite try_body_steps, Hfound, Hopen. fold loop in Hsummaries.
  destruct (loop queries _ _ _) as [r t] eqn:Hloop.
  cbn [fst] in Hsummaries. subst r. rewrite Hmedian.
  apply summarize_each_returns in Hloop; [|exact queries_keys_initialised].
  destruct Hloop as [Hcalls [Hkeys Hstripped]].
  destruct (response_record_complete summaries median Hkeys)
    as [s1 [s2 [s3 [s4 [s5 [-> Hrecord]]]]]].
  exists s1, s2, s3, s4, s5, t. rewrite Hrecord.
  split; [reflexivity|]. split.
  - apply Hstripped. repeat constructor.
  - exact Hcalls.
Qed.

End EndpointRuns.

(** *** Properties of the endpoint *)

(** X10. When the file exists and loads, the five summaries are
    collected and the extractor returns a value, the endpoint returns the
    record of the five topic keys, in their order, followed by
    [ev_ebitda_median] with the extracted value; the status is 200. *)
Theorem endpoint_returns_record
    (cosine_similarities : str -> list str -> result (list Q))
    (argsort : list Q -> list nat) (HTTPException_str : Z -> str -> str)
    (world : World) (industry : str) (document : Document) (median : str) :
  os_path_exists world (file_path_of industry) = true ->
  open_document world (file_path_of industry) = Return document ->
  summaries_collected cosine_similarities argsort world
    (nonblank_paragraphs document) (loaded industry) ->
  extract_ev_ebitda_median document = Return (Some median) ->
  (exists s1 s2 s3 s4 s5,
     fst (summarize_preset_file cosine_similarities argsort
            HTTPException_str world (Some industry) [])
     = Return [(u "current_situation", s1);
               (u "future_outlook", s2);
               (u "investment_advantages", s3);
               (u "investment_disadvantages", s4);
               (u "value_up_hypothesis", s5);
               (u "ev_ebitda_median", median)])
  /\ response_status
       (fst (summarize_preset_file cosine_similarities argsort
               HTTPException_str world (Some industry) []))
     = 200%Z.
Proof.
  intros Hfound Hopen Hsummaries Hmedian.
  destruct (try_body_returns_record _ _ _ _ _ _ Hfound Hopen Hsummaries Hmedian)
    as [s1 [s2 [s3 [s4 [s5 [t [Hbody _]]]]]]].
  rewrite endpoint_steps, Hbody. split; [|reflexivity].
  exists s1, s2, s3, s4, s5. reflexivity.
Qed.

Lemma endpoint_returns_record_witness :
  response_status
    (fst (summarize_preset_file Sample.no_overlap insertion_argsort
            Sample.starlette_str (Sample.serving Sample.two_medians)
            (Some (u "retail")) []))
  = 200%Z.
Proof.
  apply (endpoint_returns_record Sample.no_overlap insertion_argsort
           Sample.starlette_str (Sample.serving Sample.two_medians)
           (u "retail") Sample.two_medians (u "7倍")).
  - reflexivity.
  - reflexivity.
  - eexists. vm_compute. reflexivity.
  - vm_compute. reflexivity.
Defined.

(** Reading a returned record backwards: every step succeeded. *)
Lemma endpoint_return_inv
    (cosine_similarities : str -> list str -> result (list Q))
    (argsort : list Q -> list nat) (HTTPException_str : Z -> str -> str)
    (world : World) (industry : option str) (record : dict) :
  fst (summarize_preset_file cosine_similarities argsort
         HTTPException_str world industry [])
  = Return record ->
  exists name document summaries t median,
    industry = Some name
    /\ os_path_exists world (file_path_of name) = true
    /\ open_document world (file_path_of name) = Return document
    /\ summarize_each cosine_similarities argsort world queries
         (nonblank_paragraphs document) initial_summaries (loaded name)
       = (Return summaries, t)
    /\ extract_ev_ebitda_median document = Return (Some median)
    /\ response_record summaries median = Return record.
Proof.
  destruct industry as [name|]; [|discriminate].
  rewrite endpoint_steps, try_body_steps.
  assert (Hhandled : forall e t,
            fst (except_clauses HTTPException_str e t) <> Return record).
  { intros e t.
    destruct (except_clauses_raise HTTPException_str e t) as [s [d [-> _]]].
    discriminate. }
  destruct (os_path_exists world (file_path_of name)) eqn:Hfound;
    [|intros H; now apply Hhandled in H].
  destruct (open_document world (file_path_of name)) as [document|e] eqn:Hopen;
    [|intros H; now apply Hhandled in H].
  destruct (summarize_each _ _ _ _ _ _ _) as [[summaries|e] t] eqn:Hloop;
    [|intros H; now apply Hhandled in H].
  destruct (extract_ev_ebitda_median document) as [[median|]|e] eqn:Hmedian;
    try (intros H; now apply Hhandled in H).
  destruct (response_record summaries median) as [record'|e] eqn:Hrecord;
    [|intros H; now apply Hhandled in H].
  cbn [fst]. intros [= <-].
  exists name, document, summaries, t, median. repeat split; auto.
Qed.

(** X11. Every summary in a returned record is stripped: whatever the
    model answered, stripping a summary again changes nothing. *)
Theorem endpoint_summaries_stripped
    (cosine_similarities : str -> list str -> result (list Q))
    (argsort : list Q -> list nat) (HTTPException_str : Z -> str -> str)
    (world : World) (industry : option str) (record : dict) :
  fst (summarize_preset_file cosine_similarities argsort
         HTTPException_str world industry [])
  = Return record ->
  forall key value,
    In (key, value) record -> key <> u "ev_ebitda_median" ->
    strip value = value.
Proof.
  intros Hreturn. apply endpoint_return_inv in Hreturn.
  destruct Hreturn as [name [document [summaries [t [median
    [_ [_ [_ [Hloop [_ Hrecord]]]]]]]]]].
  apply summarize_each_returns in Hloop; [|exact queries_keys_initialised].
  destruct Hloop as [_ [Hkeys Hstripped]].
  destruct (response_record_complete summaries median Hkeys)
    as [s1 [s2 [s3 [s4 [s5 [-> Hrecord']]]]]].
  rewrite Hrecord' in Hrecord. injection Hrecord as <-.
  assert (Hall : Forall (fun v => strip v = v) [s1; s2; s3; s4; s5])
    by (apply Hstripped; repeat constructor).
  rewrite Forall_forall in Hall.
  intros key value Hin Hkey. cbn [In] in Hin.
  repeat (destruct Hin as [Hin|Hin];
          [injection Hin as <- <-;
           try (apply Hall; cbn [In]; tauto);
           congruence|]).
  destruct Hin.
Qed.

Lemma endpoint_summaries_stripped_witness :
  strip (u "要約") = u "要約".
Proof.
  apply (endpoint_summaries_stripped Sample.no_overlap insertion_argsort
           Sample.starlette_str (Sample.serving Sample.two_medians)
           (Some (u "retail"))
           [(u "current_situation", u "要約");
            (u "future_outlook", u "要約");
            (u "investment_advantages", u "要約");
            (u "investment_disadvantages", u "要約");
            (u "value_up_hypothesis", u "要約");
            (u "ev_ebitda_median", u "7倍")])
    with (key := u "future_outlook").
  - vm_compute. reflexivity.
  - right. left. reflexivity.
  - discriminate.
Defined.

(** X12. No exception other than [HTTPException] leaves the endpoint:
    it returns a record, or raises an [HTTPException] whose status is
    400, 404 or 500. *)
Theorem endpoint_outcome
    (cosine_similarities : str -> list str -> result (list Q))
    (argsort : list Q -> list nat) (HTTPException_str : Z -> str -> str)
    (world : World) (industry : option str) :
  (exists record,
     fst (summarize_preset_file cosine_similarities argsort
            HTTPException_str world industry [])
     = Return record)
  \/ (exists status_code detail,
        fst (summarize_preset_file cosine_similarities argsort
               HTTPException_str world industry [])
        = Raise (HTTPException status_code detail)
        /\ (status_code = 400 \/ status_code = 404 \/ status_code = 500)%Z).
Proof.
  destruct industry as [industry|].
  - rewrite endpoint_steps.
    destruct (try_body _ _ _ _ _) as [[record|e] t].
    + left. exists record. reflexivity.
    + right.
      destruct (except_clauses_raise HTTPException_str e t)
        as [s [d [-> Hs]]].
      exists s, d. split; [reflexivity|tauto].
  - right. exists 400%Z, detail_missing_industry. split; [reflexivity|tauto].
Qed.

(** X13. One request makes at most five calls to the language model,
    and exactly five when it returns a record. *)
Theorem endpoint_chat_calls
    (cosine_similarities : str -> list str -> result (list Q))
    (argsort : list Q -> list nat) (HTTPException_str : Z -> str -> str)
    (world : World) (industry : option str) :
  chat_calls (snd (summarize_preset_file cosine_similarities argsort
                     HTTPException_str world industry []))
  <= 5
  /\ (forall record,
        fst (summarize_preset_file cosine_similarities argsort
               HTTPException_str world industry [])
        = Return record ->
        chat_calls (snd (summarize_preset_file cosine_similarities argsort
                           HTTPException_str world industry []))
        = 5).
Proof.
  destruct industry as [industry|];
    [|split; [cbn; lia|discriminate]].
  rewrite endpoint_steps, try_body_steps.
  assert (Hhandled : forall e t,
            chat_calls t <= 5 ->
            chat_calls (snd (except_clauses HTTPException_str e t)) <= 5
            /\ (forall record,
                  fst (except_clauses HTTPException_str e t) = Return record ->
                  chat_calls (snd (except_clauses HTTPException_str e t)) = 5)).
  { intros e t Ht.
    destruct (except_clauses_raise HTTPException_str e t) as [s [d [-> _]]].
    split; [exact Ht|discriminate]. }
  destruct (os_path_exists world (file_path_of industry));
    [|apply Hhandled; cbn; lia].
  destruct (open_document world (file_path_of industry)) as [document|e];
    [|apply Hhandled; cbn; lia].
  pose proof (summarize_each_calls cosine_similarities argsort world
                (nonblank_paragraphs document) queries initial_summaries
                (loaded industry)) as Hcalls.
  destruct (summarize_each _ _ _ _ _ _ _) as [[summaries|e] t] eqn:Hloop;
    cbn [snd] in Hcalls;
    [|apply Hhandled; exact Hcalls].
  apply summarize_each_returns in Hloop; [|exact queries_keys_initialised].
  destruct Hloop as [Hfive _]. change (chat_calls t = 5) in Hfive.
  destruct (extract_ev_ebitda_median document) as [[median|]|e];
    try (apply Hhandled; lia).
  destruct (response_record summaries median) as [record|e];
    [|apply Hhandled; lia].
  split; [cbn [snd]; lia|intros; exact Hfive].
Qed.

(** X14. The metric is looked for after the summaries: when it is
    missing, the five calls to the language model have been made before
    the request fails. *)
Theorem missing_metric_after_five_calls
    (cosine_similarities : str -> list str -> result (list Q))
    (argsort : list Q -> list nat) (HTTPException_str : Z -> str -> str)
    (world : World) (industry : str) (document : Document) :
  os_path_exists world (file_path_of industry) = true ->
  open_document world (file_path_of industry) = Return document ->
  summaries_collected cosine_similarities argsort world
    (nonblank_paragraphs document) (loaded industry) ->
  extract_ev_ebitda_median document = Return None ->
  chat_calls (snd (summarize_preset_file cosine_similarities argsort
                     HTTPException_str world (Some industry) []))
  = 5.
Proof.
  intros Hfound Hopen [summaries Hsummaries] Hnone.
  rewrite endpoint_steps, try_body_steps, Hfound, Hopen.
  destruct (summarize_each _ _ _ _ _ _ _) as [r t] eqn:Hloop.
  cbn [fst] in Hsummaries. subst r. rewrite Hnone.
  apply summarize_each_returns in Hloop; [|exact queries_keys_initialised].
  destruct Hloop as [Hfive _]. exact Hfive.
Qed.

Lemma missing_metric_after_five_calls_witness :
  chat_calls (snd (summarize_preset_file Sample.no_overlap insertion_argsort
                     Sample.starlette_str (Sample.serving Sample.no_median)
                     (Some (u "retail")) []))
  = 5.
Proof.
  apply (missing_metric_after_five_calls Sample.no_overlap insertion_argsort
           Sample.starlette_str (Sample.serving Sample.no_median)
           (u "retail") Sample.no_median).
  - reflexivity.
  - reflexivity.
  - eexists. vm_compute. reflexivity.
  - vm_compute. reflexivity.
Defined.

(** X15. The first failure of the language model ends the request: when
    the ranker succeeds on every topic, the calls before number [i]
    answer and call [i] (one of the five) raises an [OpenAIError], the
    request is answered with status 500 and the prefixed message, and no
    call is made after the failing one. *)
Theorem model_failure_stops_request
    (cosine_similarities : str -> list str -> result (list Q))
    (argsort : list Q -> list nat) (HTTPException_str : Z -> str -> str)
    (world : World) (industry : str) (document : Document)
    (i : nat) (msg : str) :
  os_path_exists world (file_path_of industry) = true ->
  open_document world (file_path_of industry) = Return document ->
  (forall key query, In (key, query) queries ->
     exists ranked,
       search_relevant_text cosine_similarities argsort query
         (nonblank_paragraphs document)
       = Return ranked) ->
  i < 5 ->
  (forall n content, n < i ->
     exists answer, chat_completion world n content = Return answer) ->
  (forall content, chat_completion world i content = Raise (OpenAIError msg)) ->
  fst (summarize_preset_file cosine_similarities argsort HTTPException_str
         world (Some industry) [])
  = Raise (HTTPException 500 (u "OpenAI APIエラー: " ++ msg))
  /\ chat_calls (snd (summarize_preset_file cosine_similarities argsort
                        HTTPException_str world (Some industry) []))
     = S i.
Proof.
  intros Hfound Hopen Hrank Hi Hbefore Hfail.
  rewrite endpoint_steps, try_body_steps, Hfound, Hopen.
  destruct (summarize_each_fails_at cosine_similarities argsort world
              (nonblank_paragraphs document) (OpenAIError msg) i
              queries initial_summaries (loaded industry)
              Hrank Hbefore Hfail) as [t [-> Hcalls]].
  - cbn. lia.
  - split; [reflexivity|exact Hcalls].
Qed.

Lemma model_failure_stops_request_witness :
  fst (summarize_preset_file Sample.no_overlap insertion_argsort
         Sample.starlette_str (Sample.rate_limited Sample.two_medians)
         (Some (u "retail")) [])
  = Raise (HTTPException 500 (u "OpenAI APIエラー: " ++ u "rate limit"))
  /\ chat_calls (snd (summarize_preset_file Sample.no_overlap
                        insertion_argsort Sample.starlette_str
                        (Sample.rate_limited Sample.two_medians)
                        (Some (u "retail")) []))
     = 3.
Proof.
  apply (model_failure_stops_request Sample.no_overlap insertion_argsort
           Sample.starlette_str (Sample.rate_limited Sample.two_medians)
           (u "retail") Sample.two_medians 2 (u "rate limit")).
  - reflexivity.
  - reflexivity.
  - intros key query _.
    destruct (search_relevant_text_returns Sample.no_overlap
                insertion_argsort no_overlap_one_per_text
                insertion_argsort_permutes query
                (nonblank_paragraphs Sample.two_medians) _ eq_refl)
      as [Hret _].
    eexists. exact Hret.
  - repeat constructor.
  - intros [|[|n]] content Hn; [eexists; reflexivity|eexists; reflexivity|].
    exfalso. apply (Nat.lt_irrefl 2).
    apply (Nat.le_lt_trans _ (S (S n))); [|exact Hn].
    apply le_n_S, le_n_S, Nat.le_0_l.
  - reflexivity.
Defined.

(** X16. When the file passes the existence test and the loader then
    raises [FileNotFoundError], the request is answered with status 404
    and the file-not-found detail, and the language model is not
    called. *)
Theorem loader_file_not_found_answers_404
    (cosine_similarities : str -> list str -> result (list Q))
    (argsort : list Q -> list nat) (HTTPException_str : Z -> str -> str)
    (world : World) (industry msg : str) :
  os_path_exists world (file_path_of industry) = true ->
  open_document world (file_path_of industry) = Raise (FileNotFoundError msg) ->
  summarize_preset_file cosine_similarities argsort HTTPException_str world
    (Some industry) []
  = (Raise (HTTPException 404 detail_file_not_found), loaded industry).
Proof.
  intros Hfound Hopen.
  rewrite endpoint_steps, try_body_steps, Hfound, Hopen. reflexivity.
Qed.

Lemma loader_file_not_found_answers_404_witness :
  summarize_preset_file Sample.no_overlap insertion_argsort
    Sample.starlette_str Sample.vanishing_file (Some (u "retail")) []
  = (Raise (HTTPException 404 detail_file_not_found), loaded (u "retail")).
Proof.
  apply (loader_file_not_found_answers_404 Sample.no_overlap insertion_argsort
           Sample.starlette_str Sample.vanishing_file (u "retail")
           (u "No such file")).
  - reflexivity.
  - reflexivity.
Defined.
